(** * domain-stream: a shallow embedding of [domain-stream.py]

    The script watches certificate-transparency events, queues every new
    domain name once, and lets a pool of workers flag the names that contain
    one of the operator's keywords, optionally resolving them.

    Modelling choices.
    - A Python [str] is a [string]; [k in d] is substring search, written
      out as [py_in].
    - Module-level mutable state ([FOUND_COUNT], the file [domains.log], the
      console, and the monotonic clock) is one record [World], threaded by a
      small state monad [M].
    - [ARGS], [KEYWORD_DOMAINS], the constants read from [config.yaml] and
      the library calls [socket.gethostbyname] / [netaddr.IPAddress] are
      parameters of the definitions that read them.
    - Time is counted in integer clock ticks.
    - Each thread body is modelled as the sequential function it runs; a
      call that would block forever on its own ([Queue.put] on a full
      queue, [Queue.get] on an empty one) is reported as such. *)

From Stdlib Require Import String Ascii List ZArith Lia Bool Permutation.
Import ListNotations.
Open Scope string_scope.
Open Scope Z_scope.

(** ** Python string primitives *)

Module PyStr.

(** [d.startswith(p)] *)
Definition startswith (d p : string) : bool := String.prefix p d.

(** [k in d] for two strings: [k] occurs in [d] at some offset. *)
Fixpoint py_in (k d : string) : bool :=
  String.prefix k d
  || match d with
     | EmptyString => false
     | String _ d' => py_in k d'
     end.

(** [d[n:]] *)
Fixpoint slice_from (n : nat) (d : string) : string :=
  match n, d with
  | O, _ => d
  | S _, EmptyString => EmptyString
  | S n', String _ d' => slice_from n' d'
  end.

End PyStr.
Import PyStr.

(** ** Process-wide state *)

(** [argparse.Namespace] after [parse_args]. *)
Record Args : Type := mkArgs {
  resolve : bool;
  only_resolving : bool;
  skip_lets_encrypt : bool;
  threads : Z;
  log_to_file : bool;
  keywords_only : bool
}.

Record World : Type := mkWorld {
  FOUND_COUNT : Z;              (* global FOUND_COUNT *)
  domains_log : list string;    (* successive writes to domains.log *)
  console : list string;        (* lines printed by cprint *)
  clock : Z                     (* time.monotonic() *)
}.

Definition world0 : World :=
  {| FOUND_COUNT := 0; domains_log := []; console := []; clock := 0 |}.

(** A state monad over [World]. *)
Definition M (A : Type) : Type := World -> A * World.

Definition ret {A} (a : A) : M A := fun w => (a, w).

Definition bind {A B} (c : M A) (k : A -> M B) : M B :=
  fun w => let (a, w') := c w in k a w'.

Declare Scope world_scope.
Delimit Scope world_scope with world.
Notation "x <- c ;; k" := (bind c (fun x => k))
  (at level 61, c at next level, right associativity) : world_scope.
Notation "c ;; k" := (bind c (fun _ => k))
  (at level 61, right associativity) : world_scope.
Open Scope world_scope.

Definition exec {A} (c : M A) (w : World) : World := snd (c w).

Definition cprint (line : string) : M unit :=
  fun w => (tt, {| FOUND_COUNT := FOUND_COUNT w;
                   domains_log := domains_log w;
                   console := console w ++ [line];
                   clock := clock w |}).

Definition time_monotonic : M Z := fun w => (clock w, w).

(** [time.sleep(secs)] suspends the caller for at least [secs]; [overrun]
    is whatever the scheduler adds. *)
Definition time_sleep (overrun secs : Z) : M unit :=
  fun w => (tt, {| FOUND_COUNT := FOUND_COUNT w;
                   domains_log := domains_log w;
                   console := console w;
                   clock := clock w + secs + overrun |}).

(** Time passing between two calls. *)
Definition elapse (ticks : Z) (w : World) : World :=
  {| FOUND_COUNT := FOUND_COUNT w;
     domains_log := domains_log w;
     console := console w;
     clock := clock w + ticks |}.

(** ** class DomainQueue(Queue) *)

Module DomainQueue.

Record t : Type := mk {
  maxsize : Z;
  queue : list string;            (* Queue's deque, head is the oldest *)
  checked_domains : list string;
  rate_limited : bool;
  next_yield : Z
}.

Definition __init__ (maxsize : Z) : t :=
  {| maxsize := maxsize; queue := []; checked_domains := [];
     rate_limited := false; next_yield := 0 |}.

(** [Queue.full]: a [maxsize <= 0] queue is unbounded. *)
Definition full (q : t) : bool :=
  (0 <? maxsize q) && (maxsize q <=? Z.of_nat (length (queue q))).

(** [domain in self.checked_domains] *)
Definition seen (q : t) (domain : string) : bool :=
  if in_dec string_dec domain (checked_domains q) then true else false.

Inductive put_result : Type :=
| PutDone (q : t)                         (* put returned *)
| PutBlocked (q : t) (pending : string).  (* waiting in Queue.put for room *)

(** [Queue.put(item)] of the base class, blocking form. *)
Definition Queue_put (q : t) (item : string) : put_result :=
  if full q then PutBlocked q item
  else PutDone {| maxsize := maxsize q; queue := queue q ++ [item];
                  checked_domains := checked_domains q;
                  rate_limited := rate_limited q;
                  next_yield := next_yield q |}.

Definition put (q : t) (domain : string) : put_result :=
  if negb (seen q domain) then
    Queue_put {| maxsize := maxsize q; queue := queue q;
                 checked_domains := checked_domains q ++ [domain];
                 rate_limited := rate_limited q;
                 next_yield := next_yield q |} domain
  else PutDone q.

Section Get.
Variable RATE_LIMIT_SLEEP : Z.
Variable overrun : Z.

(** The body of [with self.lock:]; returns the queue with its
    rate-limit fields updated. *)
Definition rate_check (q : t) : M t :=
  t0 <- time_monotonic ;;
  r <- (if rate_limited q && (t0 <? next_yield q) then
          time_sleep overrun (next_yield q - t0) ;;
          t1 <- time_monotonic ;;
          ret (t1, false)
        else ret (t0, rate_limited q)) ;;
  ret {| maxsize := maxsize q; queue := queue q;
         checked_domains := checked_domains q;
         rate_limited := snd r;
         next_yield := fst r + RATE_LIMIT_SLEEP |}.

(** [None] as the item: the queue is empty and [Queue.get] waits. *)
Definition get (q : t) : M (t * option string) :=
  q1 <- rate_check q ;;
  match queue q1 with
  | [] => ret (q1, None)
  | item :: rest =>
      ret ({| maxsize := maxsize q1; queue := rest;
              checked_domains := checked_domains q1;
              rate_limited := rate_limited q1;
              next_yield := next_yield q1 |}, Some item)
  end.
End Get.

(** The states the queue goes through with one producer (the certstream
    callback) and any number of consumers; the second component is the
    item of a [put] that is waiting for room. *)
Inductive reachable : t -> option string -> Prop :=
| reach_init : forall maxsize,
    reachable (__init__ maxsize) None
| reach_put : forall q domain q',
    reachable q None -> put q domain = PutDone q' ->
    reachable q' None
| reach_put_blocked : forall q domain q' pending,
    reachable q None -> put q domain = PutBlocked q' pending ->
    reachable q' (Some pending)
| reach_put_resumed : forall q pending q',
    reachable q (Some pending) -> Queue_put q pending = PutDone q' ->
    reachable q' None
| reach_get : forall RATE_LIMIT_SLEEP overrun q pending w,
    reachable q pending ->
    reachable (fst (fst (get RATE_LIMIT_SLEEP overrun q w))) pending.

End DomainQueue.

(** ** class CertStreamThread(Thread) *)

Module CertStreamThread.

(** The fields of a certstream message that [process] reads:
    [message["message_type"]],
    [message["data"]["leaf_cert"]["all_domains"]] and, for every
    certificate of [message["data"]["chain"]], its
    [["subject"]["aggregated"]] string. *)
Record Message : Type := mkMessage {
  message_type : string;
  all_domains : list string;
  chain : list string
}.

Inductive outcome : Type :=
| Returned (q : DomainQueue.t)
| Raised (q : DomainQueue.t)                        (* IndexError on chain[0] *)
| Blocked (q : DomainQueue.t) (pending : string).   (* stuck in q.put *)

(** [for domain in ds: self.q.put(domain)] *)
Fixpoint put_each (q : DomainQueue.t) (ds : list string) : outcome :=
  match ds with
  | [] => Returned q
  | domain :: ds' =>
      match DomainQueue.put q domain with
      | DomainQueue.PutDone q' => put_each q' ds'
      | DomainQueue.PutBlocked q' d => Blocked q' d
      end
  end.

(** [set(all_domains)], iterated in first-occurrence order (Python leaves
    the order of a set unspecified). *)
Definition py_set (ds : list string) : list string :=
  rev (nodup string_dec (rev ds)).

Definition process (ARGS : Args) (q : DomainQueue.t) (message : Message)
  : outcome :=
  if (message_type message =? "heartbeat")%string then Returned q
  else if (message_type message =? "certificate_update")%string then
    if skip_lets_encrypt ARGS then
      match chain message with
      | [] => Raised q
      | aggregated :: _ =>
          if py_in "Let's Encrypt" aggregated then Returned q
          else put_each q (py_set (all_domains message))
      end
    else put_each q (py_set (all_domains message))
  else Returned q.

(** [process] with the order in which [set(all_domains)] is iterated left
    open: Python fixes no order for a set, so [iterate] stands for
    whatever order a run uses. [process] is the instance at [py_set]. *)
Definition process_in_order (iterate : list string -> list string)
    (ARGS : Args) (q : DomainQueue.t) (message : Message) : outcome :=
  if (message_type message =? "heartbeat")%string then Returned q
  else if (message_type message =? "certificate_update")%string then
    if skip_lets_encrypt ARGS then
      match chain message with
      | [] => Raised q
      | aggregated :: _ =>
          if py_in "Let's Encrypt" aggregated then Returned q
          else put_each q (iterate (all_domains message))
      end
    else put_each q (iterate (all_domains message))
  else Returned q.

End CertStreamThread.

(** ** class DomainWorker(Thread) *)

Module DomainWorker.

Section Worker.
Variable ARGS : Args.
Variable KEYWORD_DOMAINS : list string.
(** [socket.gethostbyname]; [None] when it raises. *)
Variable gethostbyname : string -> option string.
(** [str(netaddr.IPAddress(a))]; [None] when the constructor raises. *)
Variable IPAddress : string -> option string.
(** [os.linesep] *)
Variable linesep : string.

Definition __log (new_domain : string) : M unit :=
  fun w =>
    let found := FOUND_COUNT w + 1 in
    (tt, {| FOUND_COUNT := found;
            domains_log :=
              if log_to_file ARGS
              then domains_log w ++ [new_domain ++ linesep]
              else domains_log w;
            console := console w;
            clock := clock w |}).

Definition __domain_contains_any_keywords (domain : string) : bool :=
  existsb (fun keyword => py_in keyword domain) KEYWORD_DOMAINS.

(** The [except Exception] branch of [__check_resolution]. *)
Definition not_resolving (domain : string) : M unit :=
  cprint ("Found domain '" ++ domain ++ "', not resolving to an IP.") ;;
  if negb (only_resolving ARGS) then __log domain else ret tt.

Definition __check_resolution (domain : string) : M unit :=
  match gethostbyname domain with
  | Some a =>
      match IPAddress a with
      | Some ip =>
          cprint ("Found domain '" ++ domain
                  ++ "', resolving with IP '" ++ ip ++ "'") ;;
          if only_resolving ARGS then __log (domain ++ "," ++ ip)
          else ret tt
      | None => not_resolving domain
      end
  | None => not_resolving domain
  end.

(** [domain[2:] if domain.startswith('*.') else domain] *)
Definition remove_wildcard (domain : string) : string :=
  if startswith domain "*." then slice_from 2 domain else domain.

Definition __process (domain : string) : M unit :=
  if __domain_contains_any_keywords domain then
    let domain := remove_wildcard domain in
    if resolve ARGS then __check_resolution domain
    else
      cprint ("Found domain '" ++ domain ++ "'") ;;
      __log domain
  else ret tt.

Variable RATE_LIMIT_SLEEP : Z.
Variable overrun : Z.

(** One turn of the [while True] loop of [run]; [false] when the worker
    is left waiting in [q.get()]. *)
Definition run_once (q : DomainQueue.t) : M (DomainQueue.t * bool) :=
  r <- DomainQueue.get RATE_LIMIT_SLEEP overrun q ;;
  match snd r with
  | Some domain => __process domain ;; ret (fst r, true)
  | None => ret (fst r, false)
  end.

(** [run], cut after [turns] turns of its loop; it also stops when the
    worker is left waiting in [q.get()]. Nothing in [__process] raises in
    this model, so the [except] branch is never entered, and the task
    counter behind [task_done] is not represented. *)
Fixpoint run (turns : nat) (q : DomainQueue.t) : M DomainQueue.t :=
  match turns with
  | O => ret q
  | S turns' =>
      r <- run_once q ;;
      if snd r then run turns' (fst r) else ret (fst r)
  end.
End Worker.

End DomainWorker.

(** ** Module level: get_permutations and main *)

Definition get_permutations (domain : string) : list string :=
  [ domain ++ "-";
    "-" ++ domain ++ "-";
    "-" ++ domain;
    "." ++ domain ++ ".";
    "." ++ domain;
    "." ++ domain ++ "-";
    "-" ++ domain;
    "-" ++ domain ++ ".";
    "." ++ domain ++ "." ].

(** What the command line holds for each option; [cl_threads] is the raw
    text after [-t]/[--threads], if any. *)
Record CommandLine : Type := mkCommandLine {
  cl_resolve : bool;
  cl_only_resolving : bool;
  cl_skip_lets_encrypt : bool;
  cl_threads : option string;
  cl_log : bool;
  cl_keywords_only : bool
}.

(** What [main] has set up when it reaches [signal.pause()]. *)
Record Started : Type := mkStarted {
  st_args : Args;                 (* ARGS *)
  st_keywords : list string;      (* KEYWORD_DOMAINS *)
  st_queue : DomainQueue.t;       (* q *)
  st_workers : list nat           (* one DomainWorker per i of the range *)
}.

Section Main.
(** The builtin [int], used as [type=int]; [None] when it raises. *)
Variable py_int : string -> option Z.
Variable INPUT_DOMAINS : list string.
Variable QUEUE_SIZE : Z.

(** [parser.parse_args(namespace=ARGS)]; [None] when argparse rejects
    the command line and exits. *)
Definition parse_args (cl : CommandLine) : option Args :=
  let mk n := {| resolve := cl_resolve cl;
                 only_resolving := cl_only_resolving cl;
                 skip_lets_encrypt := cl_skip_lets_encrypt cl;
                 threads := n;
                 log_to_file := cl_log cl;
                 keywords_only := cl_keywords_only cl |} in
  match cl_threads cl with
  | None => Some (mk 20)
  | Some text =>
      match py_int text with
      | Some n => Some (mk n)
      | None => None
      end
  end.

(** [if not ARGS.threads: ARGS.threads = 5] *)
Definition default_threads (a : Args) : Args :=
  if threads a =? 0 then
    {| resolve := resolve a; only_resolving := only_resolving a;
       skip_lets_encrypt := skip_lets_encrypt a; threads := 5;
       log_to_file := log_to_file a; keywords_only := keywords_only a |}
  else a.

(** The [if ARGS.keywords_only: ... else: ...] block. *)
Definition main_keywords (a : Args) : list string :=
  if keywords_only a then
    fold_left (fun acc domain => (acc ++ get_permutations domain)%list)
              INPUT_DOMAINS []
  else INPUT_DOMAINS.

Definition main (cl : CommandLine) : option Started :=
  match parse_args cl with
  | None => None
  | Some a0 =>
      let a := default_threads a0 in
      Some {| st_args := a;
              st_keywords := main_keywords a;
              st_queue := DomainQueue.__init__ QUEUE_SIZE;
              st_workers := List.seq 0 (Z.to_nat (threads a)) |}
  end.
End Main.

(** * Statements the properties are phrased with *)

Section Statements.
Import DomainQueue.

Definition pending_items (pending : option string) : list string :=
  match pending with
  | Some item => [item]
  | None => []
  end.

(** Every name waiting (queued, or held by a blocked [put]) is waiting once
    and has been recorded, and [checked_domains] records a name once. *)
Definition wf (q : t) (pending : option string) : Prop :=
  NoDup (checked_domains q)
  /\ NoDup (queue q ++ pending_items pending)
  /\ incl (queue q ++ pending_items pending) (checked_domains q).

(** Two withdrawals in a row, [between] ticks passing from the return of
    the first to the call of the second: when both hand out an item, the
    second returns at least [RATE_LIMIT_SLEEP] after the first. *)
Definition min_spacing (RATE_LIMIT_SLEEP overrun : Z) (q : t) (w : World)
    (between : Z) : Prop :=
  let r1 := get RATE_LIMIT_SLEEP overrun q w in
  let r2 := get RATE_LIMIT_SLEEP overrun (fst (fst r1))
                (elapse between (snd r1)) in
  snd (fst r1) <> None -> snd (fst r2) <> None ->
  RATE_LIMIT_SLEEP <= clock (snd r2) - clock (snd r1).

End Statements.

Section WorkerStatements.
Import DomainWorker.
Variable ARGS : Args.
Variable KEYWORD_DOMAINS : list string.
Variable gethostbyname : string -> option string.
Variable IPAddress : string -> option string.
Variable linesep : string.

(** What [__process] does with a name once it has decided it matches. *)
Definition on_match (domain : string) : M unit :=
  if resolve ARGS then
    __check_resolution ARGS gethostbyname IPAddress linesep domain
  else
    cprint ("Found domain '" ++ domain ++ "'") ;;
    __log ARGS linesep domain.

(** The worker of the specification, in its own words:
    [Withdraw -> Normalize -> Match? -> [Resolve?] -> Log?]. *)
Definition normalize_then_match (domain : string) : M unit :=
  let domain := remove_wildcard domain in
  if __domain_contains_any_keywords KEYWORD_DOMAINS domain
  then on_match domain
  else ret tt.

(** Normalization precedes the matching decision. *)
Definition normalized_before_matching (domain : string) (w : World) : Prop :=
  __process ARGS KEYWORD_DOMAINS gethostbyname IPAddress linesep domain w
  = normalize_then_match domain w.

End WorkerStatements.

Definition is_hyphen_or_dot (c : option ascii) : bool :=
  match c with
  | Some c => (c =? "-")%char || (c =? ".")%char
  | None => false
  end.

(** Some occurrence of [seed] in [d] has a hyphen or a dot right before it
    or right after it; [prev] is the character just before [d]. *)
Fixpoint decorated_occurrence (seed : string) (prev : option ascii)
    (d : string) : bool :=
  (String.prefix seed d
   && (is_hyphen_or_dot prev
       || is_hyphen_or_dot (String.get (String.length seed) d)))
  || match d with
     | EmptyString => false
     | String c d' => decorated_occurrence seed (Some c) d'
     end.

(** The last character of [a], or [prev] when [a] is empty. *)
Fixpoint last_before (prev : option ascii) (a : string) : option ascii :=
  match a with
  | EmptyString => prev
  | String c a' => last_before (Some c) a'
  end.

(** The seven forms the specification lists for a seed. *)
Definition listed_forms (seed : string) : list string :=
  [ seed ++ "-"; "-" ++ seed ++ "-"; "-" ++ seed; "." ++ seed ++ ".";
    "." ++ seed; "." ++ seed ++ "-"; "-" ++ seed ++ "." ].

(** [iterate] lists the members of a set built from a list: each distinct
    element once, in some order. *)
Definition set_iteration (iterate : list string -> list string) : Prop :=
  forall ds, NoDup (iterate ds) /\ forall d, In d (iterate ds) <-> In d ds.

(** No seed is among the stored keywords, and a name that contains a seed
    but has no hyphen or dot next to any occurrence of it is not
    matched. *)
Definition bare_seed_never_stored (INPUT_DOMAINS KEYWORD_DOMAINS : list string)
  : Prop :=
  (forall seed, In seed INPUT_DOMAINS -> ~ In seed KEYWORD_DOMAINS)
  /\ (forall seed domain,
         In seed INPUT_DOMAINS ->
         py_in seed domain = true ->
         decorated_occurrence seed None domain = false ->
         DomainWorker.__domain_contains_any_keywords KEYWORD_DOMAINS domain
         = false).

(** With [-t] absent, [main] starts five workers. *)
Definition unset_threads_gives_five (py_int : string -> option Z)
    (INPUT_DOMAINS : list string) (QUEUE_SIZE : Z) (cl : CommandLine)
  : Prop :=
  cl_threads cl = None ->
  exists st, main py_int INPUT_DOMAINS QUEUE_SIZE cl = Some st
             /\ length (st_workers st) = 5%nat.

(** The queue an outcome of the certstream callback leaves behind. *)
Definition outcome_queue (o : CertStreamThread.outcome) : DomainQueue.t :=
  match o with
  | CertStreamThread.Returned q => q
  | CertStreamThread.Raised q => q
  | CertStreamThread.Blocked q _ => q
  end.

(** The names of [ds] that are not in [checked], each once, in the order
    of their first occurrence. *)
Fixpoint fresh_of (checked ds : list string) : list string :=
  match ds with
  | [] => []
  | d :: ds' =>
      if in_dec string_dec d checked then fresh_of checked ds'
      else d :: fresh_of (checked ++ [d]) ds'
  end.

Section SequenceStatements.
Import DomainWorker.
Variable ARGS : Args.
Variable KEYWORD_DOMAINS : list string.
Variable gethostbyname : string -> option string.
Variable IPAddress : string -> option string.
Variable linesep : string.

(** [__process] applied to one name after the other. *)
Fixpoint process_each (ds : list string) : M unit :=
  match ds with
  | [] => ret tt
  | d :: ds' =>
      __process ARGS KEYWORD_DOMAINS gethostbyname IPAddress linesep d ;;
      process_each ds'
  end.

(** The line a finding without an IP leaves in [domains.log]. *)
Definition plain_line (domain : string) : string :=
  remove_wildcard domain ++ linesep.

End SequenceStatements.

(** * Properties *)

(** ** Substring search *)

Section PyStrFacts.

Lemma prefix_app (k b : string) : String.prefix k (k ++ b) = true.
Proof.
  induction k as [|c k IH]; simpl.
  - destruct b; reflexivity.
  - destruct (ascii_dec c c) as [_|ne]; [exact IH | contradiction].
Qed.

Lemma prefix_inv (k d : string) :
  String.prefix k d = true -> exists b, d = k ++ b.
Proof.
  revert d; induction k as [|c k IH]; intros d H.
  - exists d; reflexivity.
  - destruct d as [|c' d]; simpl in H; [discriminate|].
    destruct (ascii_dec c c') as [<-|]; [|discriminate].
    destruct (IH _ H) as [b ->]. exists b; reflexivity.
Qed.

Lemma py_in_here (k d : string) :
  String.prefix k d = true -> py_in k d = true.
Proof. intros H; destruct d; simpl in *; rewrite H; reflexivity. Qed.

Lemma py_in_later (k : string) (c : ascii) (d : string) :
  py_in k d = true -> py_in k (String c d) = true.
Proof. intros H; simpl. rewrite H. apply orb_true_r. Qed.

Lemma py_in_intro (a k b : string) : py_in k (a ++ k ++ b) = true.
Proof.
  induction a as [|c a IH]; simpl.
  - apply py_in_here, prefix_app.
  - rewrite IH. apply orb_true_r.
Qed.

Lemma py_in_inv (k d : string) :
  py_in k d = true -> exists a b, d = a ++ k ++ b.
Proof.
  induction d as [|c d IH]; intros H.
  - destruct k; [|discriminate]. exists "", ""; reflexivity.
  - cbn [py_in] in H. apply orb_true_iff in H as [H|H].
    + destruct (prefix_inv _ _ H) as [b ->]. exists "", b; reflexivity.
    + destruct (IH H) as (a & b & ->). exists (String c a), b; reflexivity.
Qed.

Lemma string_app_assoc (a b c : string) : (a ++ b) ++ c = a ++ b ++ c.
Proof. induction a as [|x a IH]; simpl; [reflexivity | now rewrite IH]. Qed.

(** [py_in] is substring search. *)
Lemma py_in_spec (k d : string) :
  py_in k d = true <-> exists a b, d = a ++ k ++ b.
Proof.
  split; [apply py_in_inv|]. intros (a & b & ->). apply py_in_intro.
Qed.

(** A needle that occurs brings every one of its own prefixes along. *)
Lemma py_in_app_l (k s d : string) :
  py_in (k ++ s) d = true -> py_in k d = true.
Proof.
  intros H. destruct (py_in_inv _ _ H) as (a & b & ->).
  rewrite string_app_assoc. apply py_in_intro.
Qed.

Lemma py_in_slice_from (k : string) (n : nat) (d : string) :
  py_in k (slice_from n d) = true -> py_in k d = true.
Proof.
  revert d; induction n as [|n IH]; intros d H; [exact H|].
  destruct d as [|c d]; [exact H|].
  apply py_in_later, IH, H.
Qed.

End PyStrFacts.

(** ** The deduplicating queue *)

Section QueueFacts.
Import DomainQueue.

Lemma seen_true (q : t) (domain : string) :
  seen q domain = true <-> In domain (checked_domains q).
Proof.
  unfold seen. destruct (in_dec string_dec domain (checked_domains q));
    split; intros; auto; discriminate.
Qed.

Lemma seen_false (q : t) (domain : string) :
  seen q domain = false <-> ~ In domain (checked_domains q).
Proof.
  unfold seen. destruct (in_dec string_dec domain (checked_domains q));
    split; intros; auto; try discriminate; contradiction.
Qed.

Lemma NoDup_snoc {A} (l : list A) (x : A) :
  NoDup l -> ~ In x l -> NoDup (l ++ [x]).
Proof.
  intros Hl Hx. apply NoDup_app; [exact Hl | repeat constructor; intros [] | ].
  intros y Hy [<-|[]]. exact (Hx Hy).
Qed.

Lemma get_queue_fields (RATE_LIMIT_SLEEP overrun : Z) (q : t) (w : World) :
  let q' := fst (fst (get RATE_LIMIT_SLEEP overrun q w)) in
  checked_domains q' = checked_domains q
  /\ maxsize q' = maxsize q
  /\ (queue q' = queue q \/ exists item, queue q = item :: queue q').
Proof.
  unfold get, rate_check, bind, ret, time_monotonic, time_sleep.
  destruct (rate_limited q && (clock w <? next_yield q)); simpl;
    destruct (queue q) as [|item rest] eqn:E; simpl; rewrite ?E;
    repeat split; eauto.
Qed.

Lemma put_fresh_cases (q : t) (domain : string) :
  seen q domain = false ->
  let q1 := {| maxsize := maxsize q; queue := queue q;
               checked_domains := checked_domains q ++ [domain];
               rate_limited := rate_limited q;
               next_yield := next_yield q |} in
  (full q1 = true /\ put q domain = PutBlocked q1 domain)
  \/ (full q1 = false
      /\ put q domain =
         PutDone {| maxsize := maxsize q; queue := queue q ++ [domain];
                    checked_domains := checked_domains q ++ [domain];
                    rate_limited := rate_limited q;
                    next_yield := next_yield q |}).
Proof.
  intros Hs q1. unfold put, Queue_put. rewrite Hs. simpl.
  fold q1. destruct (full q1); [left | right]; split; reflexivity.
Qed.

Lemma put_seen (q : t) (domain : string) :
  seen q domain = true -> put q domain = PutDone q.
Proof. intros Hs. unfold put. rewrite Hs. reflexivity. Qed.

Lemma reachable_wf (q : t) (pending : option string) :
  reachable q pending -> wf q pending.
Proof.
  induction 1 as [ m
                 | q d q' _ IH Hput
                 | q d q' p _ IH Hput
                 | q p q' _ IH Hput
                 | RL ov q p w _ IH ].
  - repeat split; simpl; try constructor. intros x [].
  - destruct IH as (Hc & Hq & Hi). simpl in Hq, Hi. rewrite app_nil_r in Hq, Hi.
    destruct (seen q d) eqn:Hs.
    + rewrite (put_seen _ _ Hs) in Hput. injection Hput as <-.
      repeat split; simpl; rewrite ?app_nil_r; assumption.
    + apply seen_false in Hs as Hn.
      destruct (put_fresh_cases q d Hs) as [[_ E]|[_ E]];
        rewrite E in Hput; [discriminate|]. injection Hput as <-.
      repeat split; simpl; rewrite ?app_nil_r.
      * apply NoDup_snoc; assumption.
      * apply NoDup_snoc; [assumption|]. intros Hin. apply Hn, Hi, Hin.
      * apply incl_app; [apply incl_appl, Hi | apply incl_appr, incl_refl].
  - destruct IH as (Hc & Hq & Hi). simpl in Hq, Hi. rewrite app_nil_r in Hq, Hi.
    destruct (seen q d) eqn:Hs.
    + rewrite (put_seen _ _ Hs) in Hput. discriminate.
    + apply seen_false in Hs as Hn.
      destruct (put_fresh_cases q d Hs) as [[_ E]|[_ E]];
        rewrite E in Hput; [|discriminate]. injection Hput as <- <-.
      repeat split; simpl.
      * apply NoDup_snoc; assumption.
      * apply NoDup_snoc; [assumption|]. intros Hin. apply Hn, Hi, Hin.
      * apply incl_app; [apply incl_appl, Hi | apply incl_appr, incl_refl].
  - destruct IH as (Hc & Hq & Hi). simpl in Hq, Hi.
    unfold Queue_put in Hput. destruct (full q); [discriminate|].
    injection Hput as <-. repeat split; simpl; rewrite ?app_nil_r; assumption.
  - destruct IH as (Hc & Hq & Hi).
    destruct (get_queue_fields RL ov q w) as (Ec & _ & Eq).
    set (q' := fst (fst (get RL ov q w))) in *.
    unfold wf. rewrite Ec.
    destruct Eq as [Eq|[item Eq]].
    + rewrite Eq. repeat split; assumption.
    + rewrite Eq in Hq, Hi. simpl in Hq, Hi. repeat split.
      * assumption.
      * now inversion Hq.
      * intros x Hx. apply Hi. right. exact Hx.
Qed.

Lemma count_occ_NoDup_In (l : list string) (x : string) :
  NoDup l -> In x l -> count_occ string_dec l x = 1%nat.
Proof.
  intros Hn Hi. pose proof (proj1 (NoDup_count_occ string_dec l) Hn x).
  apply (count_occ_In string_dec) in Hi. lia.
Qed.

End QueueFacts.

(** ** Rate limiting in [DomainQueue.get] *)

Section RateLimit.
Import DomainQueue.
Variable RATE_LIMIT_SLEEP : Z.
Variable overrun : Z.

Lemma rate_check_flag_clear (q : t) (w : World) :
  rate_limited q = false ->
  rate_check RATE_LIMIT_SLEEP overrun q w =
  ({| maxsize := maxsize q; queue := queue q;
      checked_domains := checked_domains q;
      rate_limited := false;
      next_yield := clock w + RATE_LIMIT_SLEEP |}, w).
Proof.
  intros Hf. unfold rate_check, bind, ret, time_monotonic.
  rewrite Hf. reflexivity.
Qed.

Lemma rate_check_sleeps (q : t) (w : World) :
  rate_limited q = true -> clock w < next_yield q ->
  rate_check RATE_LIMIT_SLEEP overrun q w =
  ({| maxsize := maxsize q; queue := queue q;
      checked_domains := checked_domains q;
      rate_limited := false;
      next_yield := next_yield q + overrun + RATE_LIMIT_SLEEP |},
   elapse (next_yield q - clock w + overrun) w).
Proof.
  intros Hf Hlt. unfold rate_check, bind, ret, time_monotonic, time_sleep.
  rewrite Hf. apply Z.ltb_lt in Hlt. rewrite Hlt. simpl. unfold elapse.
  f_equal; f_equal; lia.
Qed.

Lemma rate_check_on_time (q : t) (w : World) :
  rate_limited q = true -> next_yield q <= clock w ->
  rate_check RATE_LIMIT_SLEEP overrun q w =
  ({| maxsize := maxsize q; queue := queue q;
      checked_domains := checked_domains q;
      rate_limited := true;
      next_yield := clock w + RATE_LIMIT_SLEEP |}, w).
Proof.
  intros Hf Hle. unfold rate_check, bind, ret, time_monotonic.
  rewrite Hf. apply Z.ltb_ge in Hle. rewrite Hle. reflexivity.
Qed.

(** [get] leaves the world and the rate-limit fields as [rate_check]
    does. *)
Lemma get_after_rate_check (q : t) (w : World) :
  let r := get RATE_LIMIT_SLEEP overrun q w in
  let c := rate_check RATE_LIMIT_SLEEP overrun q w in
  snd r = snd c
  /\ next_yield (fst (fst r)) = next_yield (fst c)
  /\ rate_limited (fst (fst r)) = rate_limited (fst c).
Proof.
  unfold get, bind.
  destruct (rate_check RATE_LIMIT_SLEEP overrun q w) as [q1 w1].
  destruct (queue q1); simpl; auto.
Qed.

Lemma Queue_put_flag (q q' : t) (item : string) :
  Queue_put q item = PutDone q' \/ Queue_put q item = PutBlocked q' item ->
  rate_limited q' = rate_limited q.
Proof.
  unfold Queue_put. destruct (full q); intros [H|H];
    try discriminate; injection H as <-; reflexivity.
Qed.

End RateLimit.

Section FlagNeverSet.
Import DomainQueue.

(** Nothing in the program sets the flag: it is clear in every state the
    queue reaches, so no withdrawal of a run sleeps. *)
Lemma reachable_flag_clear (q : t) (pending : option string) :
  reachable q pending -> rate_limited q = false.
Proof.
  induction 1 as [ m
                 | q d q' _ IH Hput
                 | q d q' p _ IH Hput
                 | q p q' _ IH Hput
                 | RL ov q p w _ IH ].
  - reflexivity.
  - unfold put in Hput. destruct (negb (seen q d)).
    + rewrite (Queue_put_flag _ _ _ (or_introl Hput)). exact IH.
    + injection Hput as <-. exact IH.
  - unfold put in Hput. destruct (negb (seen q d)); [|discriminate].
    assert (p = d) as ->.
    { unfold Queue_put in Hput. destruct (full _); [|discriminate].
      now injection Hput. }
    rewrite (Queue_put_flag _ _ _ (or_intror Hput)). exact IH.
  - rewrite (Queue_put_flag _ _ _ (or_introl Hput)). exact IH.
  - destruct (get_after_rate_check RL ov q w) as (_ & _ & ->).
    rewrite (rate_check_flag_clear _ _ _ _ IH). reflexivity.
Qed.

Lemma reachable_get_never_sleeps (RATE_LIMIT_SLEEP overrun : Z) (q : t)
    (pending : option string) (w : World) :
  reachable q pending -> snd (get RATE_LIMIT_SLEEP overrun q w) = w.
Proof.
  intros Hreach.
  destruct (get_after_rate_check RATE_LIMIT_SLEEP overrun q w)
    as (-> & _ & _).
  rewrite (rate_check_flag_clear _ _ _ _
             (reachable_flag_clear _ _ Hreach)).
  reflexivity.
Qed.

End FlagNeverSet.

(** C3, as the code has it. A withdrawal sleeps exactly when the queue's
    [rate_limited] flag is set and the clock is before the mark
    [next_yield]: it then sleeps for the remainder, nothing else in the
    world changes, and the flag is cleared. With the flag set and the clock
    at or past the mark it does not sleep and the flag stays set; with the
    flag clear it does not sleep at all. In every case the mark is left at
    the last clock reading plus [RATE_LIMIT_SLEEP]. Hence a withdrawal
    made with the flag set goes ahead no earlier than the mark the
    previous one left. *)
Theorem get_rate_limit (RATE_LIMIT_SLEEP overrun : Z)
    (q : DomainQueue.t) (w : World) :
  0 <= overrun ->
  let r := DomainQueue.get RATE_LIMIT_SLEEP overrun q w in
  let q' := fst (fst r) in
  let w' := snd r in
  DomainQueue.next_yield q' = clock w' + RATE_LIMIT_SLEEP
  /\ (DomainQueue.rate_limited q = true ->
      clock w < DomainQueue.next_yield q ->
      w' = elapse (DomainQueue.next_yield q - clock w + overrun) w
      /\ DomainQueue.rate_limited q' = false)
  /\ (DomainQueue.rate_limited q = true ->
      DomainQueue.next_yield q <= clock w ->
      w' = w /\ DomainQueue.rate_limited q' = true)
  /\ (DomainQueue.rate_limited q = true ->
      DomainQueue.next_yield q <= clock w')
  /\ (DomainQueue.rate_limited q = false ->
      w' = w /\ DomainQueue.rate_limited q' = false).
Proof.
  intros Hov r q' w'.
  destruct (get_after_rate_check RATE_LIMIT_SLEEP overrun q w)
    as (Ew & En & Ef).
  fold r in Ew, En, Ef. fold q' in En, Ef. fold w' in Ew.
  destruct (DomainQueue.rate_limited q) eqn:Hf.
  - destruct (Z.lt_ge_cases (clock w) (DomainQueue.next_yield q)) as [Hlt|Hge].
    + rewrite (rate_check_sleeps _ _ _ _ Hf Hlt) in Ew, En, Ef.
      simpl in Ew, En, Ef. rewrite Ew, En, Ef. simpl.
      split; [lia|]. split; [intros _ _; split; reflexivity|].
      split; [intros _ Hle; lia|]. split; [intros _; lia | discriminate].
    + rewrite (rate_check_on_time _ _ _ _ Hf Hge) in Ew, En, Ef.
      simpl in Ew, En, Ef. rewrite Ew, En, Ef. simpl.
      split; [lia|]. split; [intros _ Hlt; lia|].
      split; [intros _ _; split; reflexivity|].
      split; [intros _; lia | discriminate].
  - rewrite (rate_check_flag_clear _ _ _ _ Hf) in Ew, En, Ef.
    simpl in Ew, En, Ef. rewrite Ew, En, Ef.
    split; [lia|]. split; [discriminate|]. split; [discriminate|].
    split; [discriminate | intros _; split; reflexivity].
Qed.

Lemma get_rate_limit_witness :
  let flagged ny :=
    {| DomainQueue.maxsize := 0;
       DomainQueue.queue := ["a.example.com"];
       DomainQueue.checked_domains := ["a.example.com"];
       DomainQueue.rate_limited := true;
       DomainQueue.next_yield := ny |} in
  let w := elapse 20 world0 in
  let early := DomainQueue.get 10 3 (flagged 50) w in
  let on_time := DomainQueue.get 10 3 (flagged 20) w in
  let fresh := DomainQueue.get 10 3 (DomainQueue.__init__ 0) w in
  (DomainQueue.next_yield (fst (fst early)) = clock (snd early) + 10
   /\ snd early = elapse (50 - 20 + 3) w
   /\ DomainQueue.rate_limited (fst (fst early)) = false)
  /\ (snd on_time = w
      /\ DomainQueue.rate_limited (fst (fst on_time)) = true)
  /\ (snd fresh = w
      /\ DomainQueue.rate_limited (fst (fst fresh)) = false).
Proof.
  intros flagged w early on_time fresh.
  destruct (get_rate_limit 10 3 (flagged 50) w ltac:(lia))
    as (Hmark & Hsleep & _ & _ & _).
  destruct (get_rate_limit 10 3 (flagged 20) w ltac:(lia))
    as (_ & _ & Hontime & _ & _).
  destruct (get_rate_limit 10 3 (DomainQueue.__init__ 0) w ltac:(lia))
    as (_ & _ & _ & _ & Hclear).
  split; [|split].
  - destruct (Hsleep eq_refl ltac:(simpl; lia)) as (Hworld & Hflag).
    split; [exact Hmark | split; [exact Hworld | exact Hflag]].
  - exact (Hontime eq_refl ltac:(simpl; lia)).
  - exact (Hclear eq_refl).
Defined.

(** C3 as stated fails: a fresh queue holding two names hands both out one
    tick apart although [RATE_LIMIT_SLEEP] is ten ticks. *)
Lemma consecutive_gets_not_spaced :
  let q := {| DomainQueue.maxsize := 0;
              DomainQueue.queue := ["a.example.com"; "b.example.com"];
              DomainQueue.checked_domains :=
                ["a.example.com"; "b.example.com"];
              DomainQueue.rate_limited := false;
              DomainQueue.next_yield := 0 |} in
  DomainQueue.put (DomainQueue.__init__ 0) "a.example.com"
    = DomainQueue.PutDone
        {| DomainQueue.maxsize := 0;
           DomainQueue.queue := ["a.example.com"];
           DomainQueue.checked_domains := ["a.example.com"];
           DomainQueue.rate_limited := false;
           DomainQueue.next_yield := 0 |}
  /\ DomainQueue.put
       {| DomainQueue.maxsize := 0;
          DomainQueue.queue := ["a.example.com"];
          DomainQueue.checked_domains := ["a.example.com"];
          DomainQueue.rate_limited := false;
          DomainQueue.next_yield := 0 |} "b.example.com"
     = DomainQueue.PutDone q
  /\ ~ min_spacing 10 0 q (elapse 100 world0) 1.
Proof.
  intros q. split; [reflexivity | split; [reflexivity|]].
  unfold min_spacing. intros H.
  assert (G : 10 <= 1) by (apply H; vm_compute; discriminate).
  lia.
Qed.

(** ** The worker *)

Section WorkerFacts.
Import DomainWorker.
Variable ARGS : Args.
Variable KEYWORD_DOMAINS : list string.
Variable gethostbyname : string -> option string.
Variable IPAddress : string -> option string.
Variable linesep : string.

Lemma process_unfold (domain : string) :
  __process ARGS KEYWORD_DOMAINS gethostbyname IPAddress linesep domain
  = if __domain_contains_any_keywords KEYWORD_DOMAINS domain
    then on_match ARGS gethostbyname IPAddress linesep
                  (remove_wildcard domain)
    else ret tt.
Proof. reflexivity. Qed.

Lemma contains_any_intro (keyword domain : string) :
  In keyword KEYWORD_DOMAINS -> py_in keyword domain = true ->
  __domain_contains_any_keywords KEYWORD_DOMAINS domain = true.
Proof.
  intros Hin Hsub. apply existsb_exists. exists keyword. split; assumption.
Qed.

Lemma contains_any_inv (domain : string) :
  __domain_contains_any_keywords KEYWORD_DOMAINS domain = true ->
  exists keyword, In keyword KEYWORD_DOMAINS /\ py_in keyword domain = true.
Proof. intros H. apply existsb_exists in H. exact H. Qed.

Lemma py_in_remove_wildcard (keyword domain : string) :
  py_in keyword (remove_wildcard domain) = true ->
  py_in keyword domain = true.
Proof.
  unfold remove_wildcard. destruct (startswith domain "*."); [|trivial].
  apply py_in_slice_from.
Qed.

Lemma remove_wildcard_star (rest : string) :
  remove_wildcard ("*." ++ rest) = rest.
Proof.
  unfold remove_wildcard, startswith. simpl.
  destruct rest; reflexivity.
Qed.

(** A successful lookup in resolve mode: the notice is printed, and the
    finding is logged exactly when [only_resolving] is set. *)
Lemma check_resolution_success (domain a ip : string) (w : World) :
  gethostbyname domain = Some a -> IPAddress a = Some ip ->
  __check_resolution ARGS gethostbyname IPAddress linesep domain w
  = (cprint ("Found domain '" ++ domain
             ++ "', resolving with IP '" ++ ip ++ "'") ;;
     if only_resolving ARGS then __log ARGS linesep (domain ++ "," ++ ip)
     else ret tt) w.
Proof.
  intros Hh Hi. unfold __check_resolution. rewrite Hh, Hi. reflexivity.
Qed.

Lemma check_resolution_failure (domain : string) (w : World) :
  match gethostbyname domain with
  | Some a => IPAddress a
  | None => None
  end = None ->
  __check_resolution ARGS gethostbyname IPAddress linesep domain w
  = not_resolving ARGS linesep domain w.
Proof.
  unfold __check_resolution. destruct (gethostbyname domain) as [a|];
    [|reflexivity].
  intros ->. reflexivity.
Qed.

End WorkerFacts.

(** C1, at the code: in resolve mode without [only_resolving], a matching
    domain whose lookup succeeds is announced on the console but not
    logged: [FOUND_COUNT] and [domains.log] stay as they were. *)
Theorem resolved_match_not_logged_without_only_resolving
    (ARGS : Args) (KEYWORD_DOMAINS : list string)
    (gethostbyname IPAddress : string -> option string) (linesep : string)
    (domain a ip : string) (w : World) :
  resolve ARGS = true ->
  only_resolving ARGS = false ->
  DomainWorker.__domain_contains_any_keywords KEYWORD_DOMAINS domain = true ->
  gethostbyname (DomainWorker.remove_wildcard domain) = Some a ->
  IPAddress a = Some ip ->
  let w' := exec (DomainWorker.__process ARGS KEYWORD_DOMAINS gethostbyname
                    IPAddress linesep domain) w in
  FOUND_COUNT w' = FOUND_COUNT w
  /\ domains_log w' = domains_log w
  /\ console w' =
     (console w
      ++ [("Found domain '" ++ DomainWorker.remove_wildcard domain
           ++ "', resolving with IP '" ++ ip ++ "'")%string])%list.
Proof.
  intros Hr Ho Hm Hh Hi. unfold exec.
  rewrite process_unfold, Hm. unfold on_match. rewrite Hr.
  rewrite (check_resolution_success _ _ _ _ _ _ _ _ Hh Hi), Ho.
  repeat split.
Qed.

Lemma resolved_match_not_logged_witness :
  let ARGS := {| resolve := true; only_resolving := false;
                 skip_lets_encrypt := false; threads := 20;
                 log_to_file := true; keywords_only := false |} in
  let w' :=
    exec (DomainWorker.__process ARGS ["example"]
            (fun name => if (name =? "www.example.com")%string
                         then Some "93.184.216.34" else None)
            (fun a => Some a) (String "010" "") "www.example.com") world0 in
  FOUND_COUNT w' = 0
  /\ domains_log w' = []
  /\ console w' =
     ["Found domain 'www.example.com', resolving with IP '93.184.216.34'"].
Proof.
  intros ARGS w'.
  apply (resolved_match_not_logged_without_only_resolving
           ARGS ["example"]
           (fun name => if (name =? "www.example.com")%string
                        then Some "93.184.216.34" else None)
           (fun a => Some a) (String "010" "") "www.example.com"
           "93.184.216.34" "93.184.216.34" world0);
    reflexivity.
Defined.

(** C5. Resolve mode with [only_resolving]: a matching domain whose lookup
    fails leaves [FOUND_COUNT] and [domains.log] untouched; only the
    console notice is printed. *)
Theorem unresolved_match_dropped_when_only_resolving
    (ARGS : Args) (KEYWORD_DOMAINS : list string)
    (gethostbyname IPAddress : string -> option string) (linesep : string)
    (domain : string) (w : World) :
  resolve ARGS = true ->
  only_resolving ARGS = true ->
  DomainWorker.__domain_contains_any_keywords KEYWORD_DOMAINS domain = true ->
  match gethostbyname (DomainWorker.remove_wildcard domain) with
  | Some a => IPAddress a
  | None => None
  end = None ->
  let w' := exec (DomainWorker.__process ARGS KEYWORD_DOMAINS gethostbyname
                    IPAddress linesep domain) w in
  FOUND_COUNT w' = FOUND_COUNT w
  /\ domains_log w' = domains_log w
  /\ console w' =
     (console w
      ++ [("Found domain '" ++ DomainWorker.remove_wildcard domain
           ++ "', not resolving to an IP.")%string])%list.
Proof.
  intros Hr Ho Hm Hfail. unfold exec.
  rewrite process_unfold, Hm. unfold on_match. rewrite Hr.
  rewrite (check_resolution_failure _ _ _ _ _ _ Hfail).
  unfold DomainWorker.not_resolving. rewrite Ho.
  repeat split.
Qed.

Lemma unresolved_match_dropped_witness :
  let ARGS := {| resolve := true; only_resolving := true;
                 skip_lets_encrypt := false; threads := 20;
                 log_to_file := true; keywords_only := false |} in
  let w' :=
    exec (DomainWorker.__process ARGS ["example"] (fun _ => None)
            (fun a => Some a) (String "010" "") "*.example.org") world0 in
  FOUND_COUNT w' = 0
  /\ domains_log w' = []
  /\ console w' = ["Found domain 'example.org', not resolving to an IP."].
Proof.
  intros ARGS w'.
  apply (unresolved_match_dropped_when_only_resolving
           ARGS ["example"] (fun _ => None) (fun a => Some a)
           (String "010" "") "*.example.org" world0);
    reflexivity.
Defined.

(** C9. [__log] always adds one to [FOUND_COUNT]; it appends the line to
    [domains.log] exactly when [log_to_file] is set; the console and the
    clock are not touched. *)
Theorem log_counts_always_writes_if_enabled
    (ARGS : Args) (linesep new_domain : string) (w : World) :
  let w' := exec (DomainWorker.__log ARGS linesep new_domain) w in
  FOUND_COUNT w' = FOUND_COUNT w + 1
  /\ domains_log w' =
     (if log_to_file ARGS
      then (domains_log w ++ [(new_domain ++ linesep)%string])%list
      else domains_log w)
  /\ console w' = console w
  /\ clock w' = clock w.
Proof. repeat split. Qed.

(** C2, as the code has it. The matching decision is taken on the name as
    received, leading [*.] included; the wildcard is removed afterwards,
    for matching names only, before resolving or logging. A keyword that
    occurs in the stripped name occurs in the received name too, so such a
    name is always handled, under its stripped form; without resolve mode
    it is logged as the stripped form. *)
Theorem process_matches_then_removes_wildcard
    (ARGS : Args) (KEYWORD_DOMAINS : list string)
    (gethostbyname IPAddress : string -> option string) (linesep : string)
    (domain : string) (w : World) :
  let process :=
    DomainWorker.__process ARGS KEYWORD_DOMAINS gethostbyname IPAddress
      linesep in
  let matches :=
    DomainWorker.__domain_contains_any_keywords KEYWORD_DOMAINS in
  let stripped := DomainWorker.remove_wildcard domain in
  process domain w =
    (if matches domain
     then on_match ARGS gethostbyname IPAddress linesep stripped w
     else (tt, w))
  /\ (matches stripped = true ->
      matches domain = true
      /\ process domain w
         = on_match ARGS gethostbyname IPAddress linesep stripped w
      /\ (resolve ARGS = false -> log_to_file ARGS = true ->
          FOUND_COUNT (exec (process domain) w) = FOUND_COUNT w + 1
          /\ domains_log (exec (process domain) w)
             = (domains_log w ++ [(stripped ++ linesep)%string])%list)).
Proof.
  intros process matches stripped.
  assert (Hu : process domain w =
               if matches domain
               then on_match ARGS gethostbyname IPAddress linesep stripped w
               else (tt, w)).
  { unfold process. rewrite process_unfold. fold matches.
    destruct (matches domain); reflexivity. }
  split; [exact Hu|].
  intros Hs.
  assert (Hm : matches domain = true).
  { destruct (contains_any_inv _ _ Hs) as (keyword & Hin & Hsub).
    apply (contains_any_intro _ keyword); [exact Hin|].
    apply py_in_remove_wildcard, Hsub. }
  rewrite Hm in Hu. split; [exact Hm | split; [exact Hu|]].
  intros Hr Hl. unfold exec. rewrite Hu. unfold on_match. rewrite Hr.
  unfold bind, cprint, DomainWorker.__log. simpl. rewrite Hl.
  split; reflexivity.
Qed.

Lemma process_matches_then_removes_wildcard_witness :
  let ARGS := {| resolve := false; only_resolving := false;
                 skip_lets_encrypt := false; threads := 20;
                 log_to_file := true; keywords_only := false |} in
  let w' :=
    exec (DomainWorker.__process ARGS ["example"] (fun _ => None)
            (fun a => Some a) (String "010" "") "*.example.com") world0 in
  FOUND_COUNT w' = 1
  /\ domains_log w' = [("example.com" ++ String "010" "")%string].
Proof.
  intros ARGS w'.
  apply (process_matches_then_removes_wildcard
           ARGS ["example"] (fun _ => None) (fun a => Some a)
           (String "010" "") "*.example.com" world0);
    reflexivity.
Defined.

(** C2 as stated fails. With the keywords expanded from the seed
    [example], the received name [*.example.com] contains [.example.] and
    is logged as [example.com]; had the wildcard been removed first,
    [example.com] would contain none of the keywords and nothing would be
    logged. *)
Lemma matching_precedes_wildcard_removal :
  let ARGS := {| resolve := false; only_resolving := false;
                 skip_lets_encrypt := false; threads := 20;
                 log_to_file := true; keywords_only := true |} in
  let KEYWORD_DOMAINS := get_permutations "example" in
  DomainWorker.__domain_contains_any_keywords KEYWORD_DOMAINS
    (DomainWorker.remove_wildcard "*.example.com") = false
  /\ domains_log
       (exec (DomainWorker.__process ARGS KEYWORD_DOMAINS (fun _ => None)
                (fun a => Some a) (String "010" "") "*.example.com") world0)
     = [("example.com" ++ String "010" "")%string]
  /\ ~ normalized_before_matching ARGS KEYWORD_DOMAINS (fun _ => None)
         (fun a => Some a) (String "010" "") "*.example.com" world0.
Proof.
  intros ARGS KEYWORD_DOMAINS.
  split; [reflexivity | split; [reflexivity|]].
  unfold normalized_before_matching. intros H.
  apply (f_equal (fun r => FOUND_COUNT (snd r))) in H.
  vm_compute in H. discriminate.
Qed.

(** ** The certstream callback *)

(** C8. With [skip_lets_encrypt] set, a certificate update whose first
    chain certificate names Let's Encrypt returns at once: the queue is
    the one that was passed in, no domain has been offered. *)
Theorem lets_encrypt_event_offers_nothing
    (ARGS : Args) (q : DomainQueue.t) (message : CertStreamThread.Message)
    (issuer : string) (others : list string) :
  skip_lets_encrypt ARGS = true ->
  CertStreamThread.message_type message = "certificate_update" ->
  CertStreamThread.chain message = issuer :: others ->
  py_in "Let's Encrypt" issuer = true ->
  CertStreamThread.process ARGS q message = CertStreamThread.Returned q.
Proof.
  intros Hskip Htype Hchain Hissuer.
  unfold CertStreamThread.process.
  rewrite Htype, Hskip, Hchain, Hissuer. reflexivity.
Qed.

Lemma lets_encrypt_event_offers_nothing_witness :
  let ARGS := {| resolve := false; only_resolving := false;
                 skip_lets_encrypt := true; threads := 20;
                 log_to_file := false; keywords_only := false |} in
  let message :=
    {| CertStreamThread.message_type := "certificate_update";
       CertStreamThread.all_domains := ["shop.example.com"; "example.com"];
       CertStreamThread.chain :=
         ["/C=US/CN=Let's Encrypt Authority X3/O=Let's Encrypt";
          "/CN=DST Root CA X3/O=Digital Signature Trust Co."] |} in
  CertStreamThread.process ARGS (DomainQueue.__init__ 100) message
  = CertStreamThread.Returned (DomainQueue.__init__ 100).
Proof.
  intros ARGS message.
  apply (lets_encrypt_event_offers_nothing ARGS (DomainQueue.__init__ 100)
           message "/C=US/CN=Let's Encrypt Authority X3/O=Let's Encrypt"
           ["/CN=DST Root CA X3/O=Digital Signature Trust Co."]);
    reflexivity.
Defined.

(** ** Start-up: worker count and keyword expansion *)

Section MainFacts.
Variable py_int : string -> option Z.
Variable INPUT_DOMAINS : list string.
Variable QUEUE_SIZE : Z.

Lemma main_inv (cl : CommandLine) (st : Started) :
  main py_int INPUT_DOMAINS QUEUE_SIZE cl = Some st ->
  exists a, parse_args py_int cl = Some a
            /\ st_args st = default_threads a
            /\ st_keywords st = main_keywords INPUT_DOMAINS (default_threads a)
            /\ st_queue st = DomainQueue.__init__ QUEUE_SIZE
            /\ st_workers st =
               List.seq 0 (Z.to_nat (threads (default_threads a))).
Proof.
  unfold main. destruct (parse_args py_int cl) as [a|]; [|discriminate].
  intros [= <-]. exists a. repeat split.
Qed.

Lemma default_threads_keywords_only (a : Args) :
  keywords_only (default_threads a) = keywords_only a.
Proof. unfold default_threads. destruct (threads a =? 0); reflexivity. Qed.

Lemma parse_args_keywords_only (cl : CommandLine) (a : Args) :
  parse_args py_int cl = Some a -> keywords_only a = cl_keywords_only cl.
Proof.
  unfold parse_args. destruct (cl_threads cl) as [text|].
  - destruct (py_int text); [|discriminate]. now intros [= <-].
  - now intros [= <-].
Qed.

Lemma expansion_loop (seeds acc : list string) :
  fold_left (fun acc domain => (acc ++ get_permutations domain)%list)
            seeds acc
  = (acc ++ flat_map get_permutations seeds)%list.
Proof.
  revert acc. induction seeds as [|seed seeds IH]; intros acc.
  - simpl. now rewrite app_nil_r.
  - cbn [fold_left flat_map]. rewrite IH, <- app_assoc. reflexivity.
Qed.

Lemma main_keywords_expanded (a : Args) :
  keywords_only a = true ->
  main_keywords INPUT_DOMAINS a = flat_map get_permutations INPUT_DOMAINS.
Proof.
  intros H. unfold main_keywords. rewrite H. apply expansion_loop.
Qed.

Lemma main_keywords_only (cl : CommandLine) (st : Started) :
  cl_keywords_only cl = true ->
  main py_int INPUT_DOMAINS QUEUE_SIZE cl = Some st ->
  st_keywords st = flat_map get_permutations INPUT_DOMAINS.
Proof.
  intros Hk Hmain. destruct (main_inv _ _ Hmain) as (a & Hp & _ & -> & _).
  apply main_keywords_expanded.
  rewrite default_threads_keywords_only, (parse_args_keywords_only _ _ Hp).
  exact Hk.
Qed.

End MainFacts.

(** C6, as the code has it. With [-t] absent the namespace holds the
    parser default 20 and twenty workers are created; the fallback to 5
    applies when the option was given and parsed as 0. *)
Theorem threads_default_is_parser_default
    (py_int : string -> option Z) (INPUT_DOMAINS : list string)
    (QUEUE_SIZE : Z) (cl : CommandLine) :
  (cl_threads cl = None ->
   exists st, main py_int INPUT_DOMAINS QUEUE_SIZE cl = Some st
              /\ threads (st_args st) = 20
              /\ length (st_workers st) = 20%nat)
  /\ (forall text, cl_threads cl = Some text -> py_int text = Some 0 ->
      exists st, main py_int INPUT_DOMAINS QUEUE_SIZE cl = Some st
                 /\ threads (st_args st) = 5
                 /\ length (st_workers st) = 5%nat).
Proof.
  split.
  - intros Hunset. unfold main, parse_args. rewrite Hunset.
    eexists; split; [reflexivity | split; reflexivity].
  - intros text Hgiven Hzero. unfold main, parse_args.
    rewrite Hgiven, Hzero.
    eexists; split; [reflexivity | split; reflexivity].
Qed.

Lemma threads_default_is_parser_default_witness :
  let py_int := fun text => if (text =? "0")%string then Some 0 else None in
  (exists st,
      main py_int ["example"] 100
        {| cl_resolve := false; cl_only_resolving := false;
           cl_skip_lets_encrypt := false; cl_threads := None;
           cl_log := false; cl_keywords_only := false |} = Some st
      /\ threads (st_args st) = 20
      /\ length (st_workers st) = 20%nat)
  /\ (exists st,
         main py_int ["example"] 100
           {| cl_resolve := false; cl_only_resolving := false;
              cl_skip_lets_encrypt := false; cl_threads := Some "0";
              cl_log := false; cl_keywords_only := false |} = Some st
         /\ threads (st_args st) = 5
         /\ length (st_workers st) = 5%nat).
Proof.
  intros py_int. split.
  - apply (proj1 (threads_default_is_parser_default py_int ["example"] 100
                    {| cl_resolve := false; cl_only_resolving := false;
                       cl_skip_lets_encrypt := false; cl_threads := None;
                       cl_log := false; cl_keywords_only := false |})).
    reflexivity.
  - apply (proj2 (threads_default_is_parser_default py_int ["example"] 100
                    {| cl_resolve := false; cl_only_resolving := false;
                       cl_skip_lets_encrypt := false; cl_threads := Some "0";
                       cl_log := false; cl_keywords_only := false |}) "0");
      reflexivity.
Defined.

(** C6 as stated fails: with no [-t] on the command line [main] starts
    twenty workers, not five. *)
Lemma unset_threads_gives_twenty :
  ~ unset_threads_gives_five (fun _ => None) ["example"] 100
      {| cl_resolve := false; cl_only_resolving := false;
         cl_skip_lets_encrypt := false; cl_threads := None;
         cl_log := false; cl_keywords_only := false |}.
Proof.
  unfold unset_threads_gives_five. intros H.
  destruct (H eq_refl) as (st & Hmain & Hlen).
  vm_compute in Hmain. injection Hmain as <-.
  vm_compute in Hlen. discriminate.
Qed.

(** ** Keyword permutations *)

Section PermutationFacts.

Lemma listed_forms_are_permutations (seed form : string) :
  In form (listed_forms seed) -> In form (get_permutations seed).
Proof.
  unfold listed_forms, get_permutations. simpl.
  intros H. repeat (destruct H as [<-|H]; [tauto|]). destruct H.
Qed.

Lemma string_length_app (a b : string) :
  String.length (a ++ b) = (String.length a + String.length b)%nat.
Proof. induction a as [|c a IH]; simpl; [reflexivity | now rewrite IH]. Qed.

Lemma permutation_longer (seed keyword : string) :
  In keyword (get_permutations seed) ->
  (String.length seed < String.length keyword)%nat.
Proof.
  unfold get_permutations. simpl. intros H.
  repeat (destruct H as [<-|H];
          [simpl; rewrite ?string_length_app; simpl; lia|]).
  destruct H.
Qed.

Lemma get_after_prefix (seed : string) (c : ascii) (rest : string) :
  String.get (String.length seed) (seed ++ String c rest) = Some c.
Proof. induction seed as [|x seed IH]; simpl; [reflexivity | exact IH]. Qed.

Lemma decorated_here (seed : string) (prev : option ascii) (d : string) :
  String.prefix seed d = true ->
  is_hyphen_or_dot prev
  || is_hyphen_or_dot (String.get (String.length seed) d) = true ->
  decorated_occurrence seed prev d = true.
Proof.
  intros Hp Hs. destruct d; cbn [decorated_occurrence];
    rewrite Hp, Hs; reflexivity.
Qed.

Lemma decorated_later (seed : string) (prev : option ascii) (c : ascii)
    (d : string) :
  decorated_occurrence seed (Some c) d = true ->
  decorated_occurrence seed prev (String c d) = true.
Proof.
  intros H. cbn [decorated_occurrence]. rewrite H. apply orb_true_r.
Qed.

Lemma get_past_prefix (seed rest : string) :
  String.get (String.length seed) (seed ++ rest) = String.get 0 rest.
Proof. induction seed as [|x seed IH]; simpl; [reflexivity | exact IH]. Qed.

(** [decorated_occurrence] finds what its name says: a place where the
    seed occurs with a hyphen or dot on one side. *)
Lemma decorated_occurrence_spec (seed : string) (d : string) :
  forall prev,
  decorated_occurrence seed prev d = true <->
  exists a b, d = a ++ seed ++ b
              /\ is_hyphen_or_dot (last_before prev a)
                 || is_hyphen_or_dot (String.get 0 b) = true.
Proof.
  induction d as [|c d IH]; intros prev; split.
  - cbn [decorated_occurrence]. rewrite orb_false_r.
    intros H. apply andb_true_iff in H as [Hp Hs].
    destruct seed; [|discriminate]. exists "", "". split; [reflexivity|].
    exact Hs.
  - intros (a & b & E & Hs). destruct a; [|discriminate].
    destruct seed; [|discriminate]. destruct b; [|discriminate].
    apply decorated_here; [reflexivity | exact Hs].
  - cbn [decorated_occurrence]. intros H.
    apply orb_true_iff in H as [H|H].
    + apply andb_true_iff in H as [Hp Hs].
      destruct (prefix_inv _ _ Hp) as [b E]. exists "", b.
      split; [exact E|]. rewrite E, get_past_prefix in Hs. exact Hs.
    + apply IH in H as (a & b & -> & Hs). exists (String c a), b.
      split; [reflexivity | exact Hs].
  - intros (a & b & E & Hs). destruct a as [|x a].
    + change ("" ++ seed ++ b) with (seed ++ b) in E.
      apply decorated_here.
      * rewrite E. apply prefix_app.
      * rewrite E, get_past_prefix. exact Hs.
    + injection E as <- ->. apply decorated_later, IH.
      exists a, b. split; [reflexivity | exact Hs].
Qed.

(** The seed followed by a hyphen or dot. *)
Lemma suffixed_is_decorated (seed : string) (c : ascii) (d : string) :
  is_hyphen_or_dot (Some c) = true ->
  forall prev,
  py_in (seed ++ String c "") d = true ->
  decorated_occurrence seed prev d = true.
Proof.
  intros Hc. induction d as [|x d IH]; intros prev H.
  - destruct seed; discriminate.
  - cbn [py_in] in H. apply orb_true_iff in H as [H|H].
    + destruct (prefix_inv _ _ H) as [b E]. rewrite string_app_assoc in E.
      apply decorated_here.
      * rewrite E. apply prefix_app.
      * rewrite E. simpl append. rewrite get_after_prefix, Hc.
        apply orb_true_r.
    + apply decorated_later, IH, H.
Qed.

(** The seed preceded by a hyphen or dot. *)
Lemma prefixed_is_decorated (seed : string) (c : ascii) (d : string) :
  is_hyphen_or_dot (Some c) = true ->
  forall prev,
  py_in (String c seed) d = true ->
  decorated_occurrence seed prev d = true.
Proof.
  intros Hc. induction d as [|x d IH]; intros prev H.
  - discriminate.
  - cbn [py_in] in H. apply orb_true_iff in H as [H|H].
    + simpl in H. destruct (ascii_dec c x) as [<-|]; [|discriminate].
      apply decorated_later, decorated_here; [exact H|].
      rewrite Hc. reflexivity.
    + apply decorated_later, IH, H.
Qed.

Lemma permutation_is_decorated (seed keyword domain : string) :
  In keyword (get_permutations seed) ->
  py_in keyword domain = true ->
  decorated_occurrence seed None domain = true.
Proof.
  unfold get_permutations. simpl. intros H Hsub.
  repeat (destruct H as [<-|H];
          [first [ now apply (suffixed_is_decorated seed "-")
                 | now apply (prefixed_is_decorated seed "-")
                 | now apply (prefixed_is_decorated seed ".")
                 | apply (prefixed_is_decorated seed "-"); [reflexivity|];
                   apply (py_in_app_l (String "-" seed) "-"); exact Hsub
                 | apply (prefixed_is_decorated seed "-"); [reflexivity|];
                   apply (py_in_app_l (String "-" seed) "."); exact Hsub
                 | apply (prefixed_is_decorated seed "."); [reflexivity|];
                   apply (py_in_app_l (String "." seed) "-"); exact Hsub
                 | apply (prefixed_is_decorated seed "."); [reflexivity|];
                   apply (py_in_app_l (String "." seed) "."); exact Hsub ]
          |]).
  destruct H.
Qed.

End PermutationFacts.

(** C7. In keywords-only mode every seed of the input list has its seven
    listed forms among the stored keywords, and a domain that contains one
    of these forms as a substring is matched. *)
Theorem keywords_only_expands_and_matches
    (py_int : string -> option Z) (INPUT_DOMAINS : list string)
    (QUEUE_SIZE : Z) (cl : CommandLine) (st : Started) (seed : string) :
  cl_keywords_only cl = true ->
  main py_int INPUT_DOMAINS QUEUE_SIZE cl = Some st ->
  In seed INPUT_DOMAINS ->
  (forall form, In form (listed_forms seed) -> In form (st_keywords st))
  /\ (forall form domain,
         In form (listed_forms seed) -> py_in form domain = true ->
         DomainWorker.__domain_contains_any_keywords (st_keywords st) domain
         = true).
Proof.
  intros Hk Hmain Hseed.
  assert (Hstored : forall form,
             In form (listed_forms seed) -> In form (st_keywords st)).
  { intros form Hform. rewrite (main_keywords_only _ _ _ _ _ Hk Hmain).
    apply in_flat_map. exists seed. split; [exact Hseed|].
    apply listed_forms_are_permutations, Hform. }
  split; [exact Hstored|].
  intros form domain Hform Hsub.
  apply (contains_any_intro _ form); [apply Hstored, Hform | exact Hsub].
Qed.

Lemma keywords_only_expands_and_matches_witness :
  exists st,
    main (fun _ => None) ["foo"] 100
      {| cl_resolve := false; cl_only_resolving := false;
         cl_skip_lets_encrypt := false; cl_threads := None;
         cl_log := false; cl_keywords_only := true |} = Some st
    /\ In ".foo." (st_keywords st)
    /\ DomainWorker.__domain_contains_any_keywords (st_keywords st)
         "test.foo.com" = true.
Proof.
  eexists. split; [reflexivity|].
  pose proof (keywords_only_expands_and_matches (fun _ => None) ["foo"] 100
                {| cl_resolve := false; cl_only_resolving := false;
                   cl_skip_lets_encrypt := false; cl_threads := None;
                   cl_log := false; cl_keywords_only := true |}
                _ "foo" eq_refl eq_refl (or_introl eq_refl)) as [Hin Hmatch].
  split.
  - apply Hin. simpl. tauto.
  - apply (Hmatch ".foo."); [simpl; tauto | reflexivity].
Defined.

(** C10, as the code has it. In keywords-only mode the stored keywords
    are exactly the permutations of the seeds. A permutation is never the
    seed it was made from, so a seed is stored only when it is a
    permutation of another seed of the list. A domain in which no
    occurrence of any seed has a hyphen or a dot next to it is not
    matched. *)
Theorem keywords_only_never_matches_bare_seed
    (py_int : string -> option Z) (INPUT_DOMAINS : list string)
    (QUEUE_SIZE : Z) (cl : CommandLine) (st : Started) :
  cl_keywords_only cl = true ->
  main py_int INPUT_DOMAINS QUEUE_SIZE cl = Some st ->
  (forall keyword,
      In keyword (st_keywords st) <->
      exists seed, In seed INPUT_DOMAINS
                   /\ In keyword (get_permutations seed))
  /\ (forall seed, ~ In seed (get_permutations seed))
  /\ (forall seed,
         In seed (st_keywords st) ->
         exists other, In other INPUT_DOMAINS /\ other <> seed
                       /\ In seed (get_permutations other))
  /\ (forall domain,
         (forall seed, In seed INPUT_DOMAINS ->
                       decorated_occurrence seed None domain = false) ->
         DomainWorker.__domain_contains_any_keywords (st_keywords st) domain
         = false).
Proof.
  intros Hk Hmain.
  rewrite (main_keywords_only _ _ _ _ _ Hk Hmain).
  assert (Hown : forall seed, ~ In seed (get_permutations seed)).
  { intros seed Hin. apply permutation_longer in Hin. lia. }
  split; [|split; [|split]].
  - intros keyword. apply in_flat_map.
  - exact Hown.
  - intros seed Hin. apply in_flat_map in Hin as (other & Hother & Hperm).
    exists other. split; [exact Hother | split; [|exact Hperm]].
    intros ->. exact (Hown _ Hperm).
  - intros domain Hbare.
    destruct (DomainWorker.__domain_contains_any_keywords
                (flat_map get_permutations INPUT_DOMAINS) domain) eqn:Hm;
      [|reflexivity].
    destruct (contains_any_inv _ _ Hm) as (keyword & Hin & Hsub).
    apply in_flat_map in Hin as (seed & Hseed & Hperm).
    specialize (Hbare seed Hseed).
    rewrite (permutation_is_decorated _ _ _ Hperm Hsub) in Hbare.
    discriminate.
Qed.

Lemma keywords_only_never_matches_bare_seed_witness :
  exists st,
    main (fun _ => None) ["foo"] 100
      {| cl_resolve := false; cl_only_resolving := false;
         cl_skip_lets_encrypt := false; cl_threads := None;
         cl_log := false; cl_keywords_only := true |} = Some st
    /\ ~ In "foo" (st_keywords st)
    /\ DomainWorker.__domain_contains_any_keywords (st_keywords st)
         "foobar.com" = false.
Proof.
  eexists. split; [reflexivity|].
  pose proof (keywords_only_never_matches_bare_seed (fun _ => None) ["foo"]
                100
                {| cl_resolve := false; cl_only_resolving := false;
                   cl_skip_lets_encrypt := false; cl_threads := None;
                   cl_log := false; cl_keywords_only := true |}
                _ eq_refl eq_refl) as (_ & _ & Hstored & Hbare).
  split.
  - intros Hin. apply Hstored in Hin as (other & [<-|[]] & Hne & _).
    exact (Hne eq_refl).
  - apply Hbare. intros seed [<-|[]]. reflexivity.
Defined.

(** C10 as stated fails. With the seeds [foo] and [-foo], the seed [-foo]
    is stored, as a permutation of [foo]; and [x-foobar.com], which holds
    the seed [-foo] with neither a hyphen nor a dot next to it, is
    matched. *)
Lemma bare_seed_stored_as_permutation_of_another :
  exists st,
    main (fun _ => None) ["foo"; "-foo"] 100
      {| cl_resolve := false; cl_only_resolving := false;
         cl_skip_lets_encrypt := false; cl_threads := None;
         cl_log := false; cl_keywords_only := true |} = Some st
    /\ In "-foo" (st_keywords st)
    /\ py_in "-foo" "x-foobar.com" = true
    /\ decorated_occurrence "-foo" None "x-foobar.com" = false
    /\ DomainWorker.__domain_contains_any_keywords (st_keywords st)
         "x-foobar.com" = true
    /\ ~ bare_seed_never_stored ["foo"; "-foo"] (st_keywords st).
Proof.
  eexists. split; [reflexivity|].
  split; [simpl; tauto|]. split; [reflexivity|]. split; [reflexivity|].
  split; [reflexivity|].
  intros [Hnone _]. apply (Hnone "-foo"); simpl; tauto.
Qed.

(** * Further properties *)

(** ** The queue between its producer and its consumers *)

Section QueueSteps.
Import DomainQueue.

Lemma get_result_cases (RATE_LIMIT_SLEEP overrun : Z) (q : t) (w : World) :
  let r := get RATE_LIMIT_SLEEP overrun q w in
  (queue q = [] /\ snd (fst r) = None /\ queue (fst (fst r)) = [])
  \/ (exists item rest,
         queue q = item :: rest /\ snd (fst r) = Some item
         /\ queue (fst (fst r)) = rest).
Proof.
  unfold get, rate_check, bind, ret, time_monotonic, time_sleep.
  destruct (rate_limited q && (clock w <? next_yield q)); simpl;
    destruct (queue q) as [|item rest] eqn:E; simpl; rewrite ?E; eauto 8.
Qed.

Lemma Queue_put_done (q q' : t) (item : string) :
  Queue_put q item = PutDone q' ->
  full q = false
  /\ q' = {| maxsize := maxsize q; queue := queue q ++ [item];
             checked_domains := checked_domains q;
             rate_limited := rate_limited q;
             next_yield := next_yield q |}.
Proof.
  unfold Queue_put. destruct (full q); [discriminate|].
  intros [= <-]. split; reflexivity.
Qed.

Lemma not_full_room (q : t) :
  full q = false -> 0 < maxsize q ->
  Z.of_nat (length (queue q)) < maxsize q.
Proof.
  unfold full. intros H Hpos. apply Z.ltb_lt in Hpos. rewrite Hpos in H.
  simpl in H. apply Z.leb_gt in H. exact H.
Qed.

Lemma unbounded_not_full (q : t) : maxsize q <= 0 -> full q = false.
Proof.
  unfold full. intros H. apply Z.ltb_ge in H. rewrite H. reflexivity.
Qed.

Lemma room_not_full (q : t) :
  Z.of_nat (length (queue q)) < maxsize q -> full q = false.
Proof.
  unfold full. intros H. apply Z.leb_gt in H. rewrite H. apply andb_false_r.
Qed.

(** What one [put] does, in its three cases. *)
Lemma put_cases (q : t) (domain : string) :
  (In domain (checked_domains q) /\ put q domain = PutDone q)
  \/ (~ In domain (checked_domains q) /\ full q = true
      /\ put q domain =
         PutBlocked {| maxsize := maxsize q; queue := queue q;
                       checked_domains := checked_domains q ++ [domain];
                       rate_limited := rate_limited q;
                       next_yield := next_yield q |} domain)
  \/ (~ In domain (checked_domains q) /\ full q = false
      /\ put q domain =
         PutDone {| maxsize := maxsize q; queue := queue q ++ [domain];
                    checked_domains := checked_domains q ++ [domain];
                    rate_limited := rate_limited q;
                    next_yield := next_yield q |}).
Proof.
  destruct (seen q domain) eqn:Hs.
  - left. split; [apply seen_true, Hs | apply put_seen, Hs].
  - right. apply seen_false in Hs as Hn.
    destruct (put_fresh_cases q domain Hs) as [[Hf E]|[Hf E]];
      [left | right]; (split; [exact Hn | split; [exact Hf | exact E]]).
Qed.

Lemma fresh_of_seen (checked ds : list string) (d : string) :
  In d checked -> fresh_of checked (d :: ds) = fresh_of checked ds.
Proof.
  intros H. simpl. destruct (in_dec string_dec d checked);
    [reflexivity | contradiction].
Qed.

Lemma fresh_of_new (checked ds : list string) (d : string) :
  ~ In d checked ->
  fresh_of checked (d :: ds) = d :: fresh_of (checked ++ [d]) ds.
Proof.
  intros H. simpl. destruct (in_dec string_dec d checked);
    [contradiction | reflexivity].
Qed.

Lemma fresh_of_covers (ds checked : list string) (d : string) :
  In d ds -> In d (checked ++ fresh_of checked ds).
Proof.
  revert checked. induction ds as [|x ds IH]; intros checked; [intros []|].
  intros [<-|Hin].
  - destruct (in_dec string_dec x checked) as [Hx|Hx].
    + apply in_or_app. left. exact Hx.
    + rewrite (fresh_of_new _ _ _ Hx). apply in_or_app. right. now left.
  - destruct (in_dec string_dec x checked) as [Hx|Hx].
    + rewrite (fresh_of_seen _ _ _ Hx). apply IH, Hin.
    + rewrite (fresh_of_new _ _ _ Hx).
      specialize (IH (checked ++ [x])%list Hin). rewrite <- app_assoc in IH.
      exact IH.
Qed.

Lemma fresh_of_length (ds checked : list string) :
  (length (fresh_of checked ds) <= length ds)%nat.
Proof.
  revert checked. induction ds as [|x ds IH]; intros checked; simpl; [lia|].
  destruct (in_dec string_dec x checked); simpl.
  - specialize (IH checked). lia.
  - specialize (IH (checked ++ [x])%list). lia.
Qed.

(** A NoDup list of new names is taken whole. *)
Lemma fresh_of_all_new (ds checked : list string) :
  NoDup ds -> (forall d, In d ds -> ~ In d checked) ->
  fresh_of checked ds = ds.
Proof.
  revert checked. induction ds as [|x ds IH]; intros checked Hn Hnew;
    [reflexivity|].
  inversion Hn as [|? ? Hx Hn']; subst.
  rewrite fresh_of_new by (apply Hnew; now left).
  f_equal. apply IH; [exact Hn'|].
  intros d Hd Hin. apply in_app_or in Hin as [Hin|[<-|[]]].
  - apply (Hnew d); [now right | exact Hin].
  - exact (Hx Hd).
Qed.

(** A loop of [put]s that runs to its end appends the new names, in the
    order they were offered, to the queue and to [checked_domains]. *)
Lemma put_each_returned (ds : list string) (q q' : t) :
  CertStreamThread.put_each q ds = CertStreamThread.Returned q' ->
  q' = {| maxsize := maxsize q;
          queue := queue q ++ fresh_of (checked_domains q) ds;
          checked_domains :=
            checked_domains q ++ fresh_of (checked_domains q) ds;
          rate_limited := rate_limited q;
          next_yield := next_yield q |}.
Proof.
  revert q. induction ds as [|d ds IH]; intros q H.
  - simpl in H. injection H as <-. simpl. rewrite !app_nil_r.
    destruct q; reflexivity.
  - cbn [CertStreamThread.put_each] in H.
    destruct (put_cases q d) as [(Hin & E)|[(Hn & Hf & E)|(Hn & Hf & E)]];
      rewrite E in H.
    + rewrite (fresh_of_seen _ _ _ Hin). apply IH, H.
    + discriminate.
    + rewrite (fresh_of_new _ _ _ Hn). apply IH in H. rewrite H. simpl.
      rewrite <- !app_assoc. reflexivity.
Qed.

(** Whatever its outcome, the loop only appends. *)
Lemma put_each_appends (ds : list string) (q : t) :
  let q' := outcome_queue (CertStreamThread.put_each q ds) in
  exists added queued : list string,
    checked_domains q' = (checked_domains q ++ added)%list
    /\ queue q' = (queue q ++ queued)%list
    /\ maxsize q' = maxsize q.
Proof.
  revert q. induction ds as [|d ds IH]; intros q.
  - exists [], []. simpl. rewrite !app_nil_r. repeat split.
  - cbn [CertStreamThread.put_each].
    destruct (put_cases q d) as [(Hin & E)|[(Hn & Hf & E)|(Hn & Hf & E)]];
      rewrite E.
    + apply IH.
    + exists [d], []. simpl. rewrite app_nil_r. repeat split.
    + destruct (IH {| maxsize := maxsize q; queue := queue q ++ [d];
                      checked_domains := checked_domains q ++ [d];
                      rate_limited := rate_limited q;
                      next_yield := next_yield q |})
        as (added & queued & Ec & Eq & Em).
      exists (d :: added), (d :: queued). simpl in *.
      rewrite Ec, Eq, Em, <- !app_assoc. repeat split.
Qed.

(** With room for all of them, the loop runs to its end. *)
Lemma put_each_room (ds : list string) (q : t) :
  maxsize q <= 0
  \/ Z.of_nat (length (queue q)) + Z.of_nat (length ds) <= maxsize q ->
  exists q', CertStreamThread.put_each q ds = CertStreamThread.Returned q'.
Proof.
  revert q. induction ds as [|d ds IH]; intros q Hroom.
  - exists q. reflexivity.
  - cbn [CertStreamThread.put_each].
    assert (Hnf : full q = false).
    { destruct Hroom as [H|H]; [apply unbounded_not_full, H|].
      apply room_not_full. simpl length in H. lia. }
    destruct (put_cases q d) as [(Hin & E)|[(Hn & Hf & E)|(Hn & _ & E)]];
      rewrite E.
    + apply IH. destruct Hroom as [H|H]; [left; exact H | right].
      simpl length in H. lia.
    + congruence.
    + apply IH. simpl. destruct Hroom as [H|H]; [left; exact H | right].
      rewrite length_app. simpl length in *. lia.
Qed.

(** The loop of [put]s keeps the queue among the states of [reachable]. *)
Lemma put_each_reachable (ds : list string) (q : t) :
  reachable q None ->
  match CertStreamThread.put_each q ds with
  | CertStreamThread.Returned q' => reachable q' None
  | CertStreamThread.Raised q' => reachable q' None
  | CertStreamThread.Blocked q' pending => reachable q' (Some pending)
  end.
Proof.
  revert q. induction ds as [|d ds IH]; intros q Hr; [exact Hr|].
  cbn [CertStreamThread.put_each].
  destruct (put q d) as [q1|q1 pending] eqn:E.
  - apply IH. exact (reach_put _ _ _ Hr E).
  - exact (reach_put_blocked _ _ _ _ Hr E).
Qed.

End QueueSteps.

Section FreshFacts.

Lemma fresh_of_In (ds checked : list string) (d : string) :
  In d (fresh_of checked ds) <-> In d ds /\ ~ In d checked.
Proof.
  split.
  - revert checked. induction ds as [|x ds IH]; intros checked; [intros []|].
    destruct (in_dec string_dec x checked) as [Hx|Hx].
    + rewrite (fresh_of_seen _ _ _ Hx). intros H.
      destruct (IH _ H) as [Hin Hn]. split; [now right | exact Hn].
    + rewrite (fresh_of_new _ _ _ Hx). intros [<-|H].
      * split; [now left | exact Hx].
      * destruct (IH _ H) as [Hin Hn]. split; [now right|].
        intros Hc. apply Hn, in_or_app. now left.
  - intros [Hin Hn].
    destruct (in_app_or _ _ _ (fresh_of_covers ds checked d Hin)) as [H|H];
      [contradiction | exact H].
Qed.

Lemma fresh_of_NoDup (ds checked : list string) :
  NoDup (fresh_of checked ds).
Proof.
  revert checked. induction ds as [|x ds IH]; intros checked; [constructor|].
  destruct (in_dec string_dec x checked) as [Hx|Hx].
  - rewrite (fresh_of_seen _ _ _ Hx). apply IH.
  - rewrite (fresh_of_new _ _ _ Hx). constructor; [|apply IH].
    intros H. apply fresh_of_In in H as [_ Hn].
    apply Hn, in_or_app. right. now left.
Qed.

Lemma py_set_In (ds : list string) (d : string) :
  In d (CertStreamThread.py_set ds) <-> In d ds.
Proof.
  unfold CertStreamThread.py_set.
  rewrite <- in_rev, nodup_In, <- in_rev. reflexivity.
Qed.

Lemma py_set_NoDup (ds : list string) : NoDup (CertStreamThread.py_set ds).
Proof.
  unfold CertStreamThread.py_set. apply NoDup_rev, NoDup_nodup.
Qed.

Lemma py_set_length (ds : list string) :
  (length (CertStreamThread.py_set ds) <= length ds)%nat.
Proof.
  unfold CertStreamThread.py_set. rewrite length_rev.
  pose proof (NoDup_incl_length (NoDup_nodup string_dec (rev ds))
                (fun x H => proj1 (nodup_In string_dec (rev ds) x) H)).
  rewrite length_rev in H. exact H.
Qed.

(** When a certificate update is not skipped, the callback is the loop of
    [put]s over the distinct names of the event. *)
Lemma process_offers (ARGS : Args) (q : DomainQueue.t)
    (message : CertStreamThread.Message) :
  CertStreamThread.message_type message = "certificate_update" ->
  skip_lets_encrypt ARGS = false ->
  CertStreamThread.process ARGS q message
  = CertStreamThread.put_each q
      (CertStreamThread.py_set (CertStreamThread.all_domains message)).
Proof.
  intros Ht Hs. unfold CertStreamThread.process. rewrite Ht, Hs.
  reflexivity.
Qed.

(** In every case the callback ends in the loop of [put]s over some list
    of names, possibly none. *)
Lemma process_as_loop (ARGS : Args) (q : DomainQueue.t)
    (message : CertStreamThread.Message) :
  CertStreamThread.process ARGS q message = CertStreamThread.Raised q
  \/ exists ds,
       (ds = [] \/ ds = CertStreamThread.py_set
                          (CertStreamThread.all_domains message))
       /\ CertStreamThread.process ARGS q message
          = CertStreamThread.put_each q ds.
Proof.
  unfold CertStreamThread.process.
  destruct (_ =? "heartbeat")%string; [right; exists []; auto|].
  destruct (_ =? "certificate_update")%string; [|right; exists []; auto].
  destruct (skip_lets_encrypt ARGS); [|right; eauto].
  destruct (CertStreamThread.chain message) as [|issuer others];
    [left; reflexivity|].
  destruct (py_in _ issuer); right; [exists [] | eexists]; auto.
Qed.

End FreshFacts.

Lemma reachable_within_maxsize
    (q : DomainQueue.t) (pending : option string) :
  DomainQueue.reachable q pending ->
  0 < DomainQueue.maxsize q ->
  Z.of_nat (length (DomainQueue.queue q)) <= DomainQueue.maxsize q.
Proof.
  induction 1 as [ m
                 | q d q' _ IH Hput
                 | q d q' p _ IH Hput
                 | q p q' _ IH Hput
                 | RL ov q p w _ IH ]; intros Hpos.
  - simpl. simpl in Hpos. lia.
  - destruct (put_cases q d) as [(_ & E)|[(_ & _ & E)|(_ & Hf & E)]];
      rewrite E in Hput; try discriminate; injection Hput as <-.
    + apply IH, Hpos.
    + simpl in *. pose proof (not_full_room q Hf Hpos).
      rewrite length_app. simpl. lia.
  - destruct (put_cases q d) as [(_ & E)|[(_ & _ & E)|(_ & Hf & E)]];
      rewrite E in Hput; try discriminate; injection Hput as <- <-.
    simpl in *. apply IH, Hpos.
  - destruct (Queue_put_done _ _ _ Hput) as [Hf ->]. simpl in *.
    pose proof (not_full_room q Hf Hpos). rewrite length_app. simpl. lia.
  - destruct (get_queue_fields RL ov q w) as (_ & Em & Eq).
    rewrite Em in Hpos |- *. specialize (IH Hpos).
    destruct Eq as [->|[item Eq]]; [exact IH|].
    rewrite Eq in IH. simpl length in IH. lia.
Qed.

(** X1. A bounded queue never holds more than [maxsize] names, in any
    state it reaches. *)
Theorem queue_never_exceeds_maxsize
    (q : DomainQueue.t) (pending : option string) :
  DomainQueue.reachable q pending ->
  0 < DomainQueue.maxsize q ->
  Z.of_nat (length (DomainQueue.queue q)) <= DomainQueue.maxsize q.
Proof. exact (reachable_within_maxsize q pending). Qed.

Lemma queue_never_exceeds_maxsize_witness :
  Z.of_nat
    (length
       (DomainQueue.queue
          {| DomainQueue.maxsize := 1;
             DomainQueue.queue := ["a.example.com"];
             DomainQueue.checked_domains := ["a.example.com"];
             DomainQueue.rate_limited := false;
             DomainQueue.next_yield := 0 |})) <= 1.
Proof.
  apply (queue_never_exceeds_maxsize
           {| DomainQueue.maxsize := 1;
              DomainQueue.queue := ["a.example.com"];
              DomainQueue.checked_domains := ["a.example.com"];
              DomainQueue.rate_limited := false;
              DomainQueue.next_yield := 0 |} None).
  - apply (DomainQueue.reach_put (DomainQueue.__init__ 1) "a.example.com");
      [apply DomainQueue.reach_init | reflexivity].
  - simpl. lia.
Defined.

(** X2. The callback is never left waiting in [put] when the queue is
    unbounded ([maxsize <= 0]) or has room for every name of the event. *)
Theorem callback_with_room_never_blocks
    (ARGS : Args) (q : DomainQueue.t) (message : CertStreamThread.Message) :
  DomainQueue.maxsize q <= 0
  \/ Z.of_nat (length (DomainQueue.queue q))
     + Z.of_nat (length (CertStreamThread.all_domains message))
     <= DomainQueue.maxsize q ->
  forall q' pending,
    CertStreamThread.process ARGS q message
    <> CertStreamThread.Blocked q' pending.
Proof.
  intros Hroom q' pending.
  destruct (process_as_loop ARGS q message) as [E|(ds & Hds & E)];
    rewrite E; [discriminate|].
  destruct (put_each_room ds q) as [q1 E1]; [|rewrite E1; discriminate].
  destruct Hroom as [H|H]; [left; exact H | right].
  destruct Hds as [->| ->]; simpl length; [lia|].
  pose proof (py_set_length (CertStreamThread.all_domains message)). lia.
Qed.

Lemma callback_with_room_never_blocks_witness :
  ~ exists q' pending,
      CertStreamThread.process
        {| resolve := false; only_resolving := false;
           skip_lets_encrypt := false; threads := 20;
           log_to_file := false; keywords_only := false |}
        (DomainQueue.__init__ 2)
        {| CertStreamThread.message_type := "certificate_update";
           CertStreamThread.all_domains := ["example.com"; "www.example.com"];
           CertStreamThread.chain := [] |}
      = CertStreamThread.Blocked q' pending.
Proof.
  intros (q' & pending & H).
  apply (callback_with_room_never_blocks
           {| resolve := false; only_resolving := false;
              skip_lets_encrypt := false; threads := 20;
              log_to_file := false; keywords_only := false |}
           (DomainQueue.__init__ 2)
           {| CertStreamThread.message_type := "certificate_update";
              CertStreamThread.all_domains :=
                ["example.com"; "www.example.com"];
              CertStreamThread.chain := [] |}
           ltac:(right; simpl; lia) q' pending H).
Defined.

(** X3. [checked_domains] is never pruned: a withdrawal leaves it as it
    is, and the callback, whatever its outcome, only appends to it. *)
Theorem checked_domains_only_grows (q : DomainQueue.t) :
  (forall RATE_LIMIT_SLEEP overrun w,
      DomainQueue.checked_domains
        (fst (fst (DomainQueue.get RATE_LIMIT_SLEEP overrun q w)))
      = DomainQueue.checked_domains q)
  /\ (forall ARGS message,
         exists added : list string,
           DomainQueue.checked_domains
             (outcome_queue (CertStreamThread.process ARGS q message))
           = (DomainQueue.checked_domains q ++ added)%list).
Proof.
  split.
  - intros RL ov w. apply get_queue_fields.
  - intros ARGS message.
    destruct (process_as_loop ARGS q message) as [E|(ds & _ & E)]; rewrite E.
    + exists []. simpl. now rewrite app_nil_r.
    + destruct (put_each_appends ds q) as (added & _ & Ec & _).
      exists added. exact Ec.
Qed.

Section IterationFacts.

Lemma py_set_iteration : set_iteration CertStreamThread.py_set.
Proof.
  intros ds. split; [apply py_set_NoDup | intros d; apply py_set_In].
Qed.

Lemma process_is_in_order (ARGS : Args) (q : DomainQueue.t)
    (message : CertStreamThread.Message) :
  CertStreamThread.process ARGS q message
  = CertStreamThread.process_in_order CertStreamThread.py_set ARGS q message.
Proof. reflexivity. Qed.

Lemma set_iteration_length (iterate : list string -> list string)
    (ds : list string) :
  set_iteration iterate -> (length (iterate ds) <= length ds)%nat.
Proof.
  intros Hit. destruct (Hit ds) as [Hn Hin].
  apply (NoDup_incl_length Hn). intros d Hd. apply Hin, Hd.
Qed.

Lemma set_iteration_Permutation (iterate : list string -> list string)
    (ds : list string) :
  set_iteration iterate -> Permutation (iterate ds) (nodup string_dec ds).
Proof.
  intros Hit. destruct (Hit ds) as [Hn Hin].
  apply NoDup_Permutation; [exact Hn | apply NoDup_nodup|].
  intros d. rewrite Hin, nodup_In. reflexivity.
Qed.

(** A certificate update that is not skipped (the flag is clear, or the
    first certificate of the chain does not name Let's Encrypt) goes
    through the loop of [put]s over the distinct names of the event. *)
Lemma process_in_order_offers (iterate : list string -> list string)
    (ARGS : Args) (q : DomainQueue.t) (message : CertStreamThread.Message) :
  CertStreamThread.message_type message = "certificate_update" ->
  skip_lets_encrypt ARGS = false
  \/ (exists issuer others,
         CertStreamThread.chain message = issuer :: others
         /\ py_in "Let's Encrypt" issuer = false) ->
  CertStreamThread.process_in_order iterate ARGS q message
  = CertStreamThread.put_each q
      (iterate (CertStreamThread.all_domains message)).
Proof.
  intros Ht Hns. unfold CertStreamThread.process_in_order. rewrite Ht.
  simpl. destruct (skip_lets_encrypt ARGS); [|reflexivity].
  destruct Hns as [H|(issuer & others & Hc & Hi)]; [discriminate|].
  rewrite Hc, Hi. reflexivity.
Qed.

End IterationFacts.

(** X4. Take a certificate update that is not skipped: the flag is clear,
    or the first certificate of its chain does not name Let's Encrypt. In
    whatever order the set of its names is iterated, a callback that
    returns has queued exactly the names of the event that had not been
    checked before, each once, behind what was queued; the same names are
    appended to [checked_domains], so every name of the event is recorded
    afterwards. *)
Theorem callback_queues_exactly_the_new_names
    (iterate : list string -> list string)
    (ARGS : Args) (q q' : DomainQueue.t)
    (message : CertStreamThread.Message) :
  set_iteration iterate ->
  CertStreamThread.message_type message = "certificate_update" ->
  skip_lets_encrypt ARGS = false
  \/ (exists issuer others,
         CertStreamThread.chain message = issuer :: others
         /\ py_in "Let's Encrypt" issuer = false) ->
  CertStreamThread.process_in_order iterate ARGS q message
  = CertStreamThread.Returned q' ->
  exists new : list string,
    DomainQueue.queue q' = (DomainQueue.queue q ++ new)%list
    /\ DomainQueue.checked_domains q'
       = (DomainQueue.checked_domains q ++ new)%list
    /\ NoDup new
    /\ (forall d, In d new <->
                  In d (CertStreamThread.all_domains message)
                  /\ ~ In d (DomainQueue.checked_domains q))
    /\ (forall d, In d (CertStreamThread.all_domains message) ->
                  In d (DomainQueue.checked_domains q')).
Proof.
  intros Hit Ht Hns Hret.
  rewrite (process_in_order_offers iterate _ _ _ Ht Hns) in Hret.
  apply put_each_returned in Hret.
  set (ds := iterate (CertStreamThread.all_domains message)) in *.
  set (new := fresh_of (DomainQueue.checked_domains q) ds) in *.
  assert (Hnew : forall d, In d new <->
                           In d (CertStreamThread.all_domains message)
                           /\ ~ In d (DomainQueue.checked_domains q)).
  { intros d. unfold new. rewrite fresh_of_In. unfold ds.
    rewrite (proj2 (Hit _) d). reflexivity. }
  exists new. rewrite Hret. simpl.
  split; [reflexivity | split; [reflexivity | split; [|split]]].
  - apply fresh_of_NoDup.
  - exact Hnew.
  - intros d Hd. apply in_or_app.
    destruct (in_dec string_dec d (DomainQueue.checked_domains q)) as [H|H];
      [left; exact H | right]. apply Hnew. split; assumption.
Qed.

Lemma callback_queues_exactly_the_new_names_witness :
  exists new : list string,
    ["www.example.com"; "example.com"]
    = (["www.example.com"] ++ new)%list
    /\ ["www.example.com"; "example.com"]
       = (["www.example.com"] ++ new)%list
    /\ NoDup new
    /\ (forall d, In d new <->
                  In d ["example.com"; "www.example.com"; "example.com"]
                  /\ ~ In d ["www.example.com"])
    /\ (forall d, In d ["example.com"; "www.example.com"; "example.com"] ->
                  In d ["www.example.com"; "example.com"]).
Proof.
  apply (callback_queues_exactly_the_new_names
           CertStreamThread.py_set
           {| resolve := false; only_resolving := false;
              skip_lets_encrypt := true; threads := 20;
              log_to_file := false; keywords_only := false |}
           {| DomainQueue.maxsize := 0;
              DomainQueue.queue := ["www.example.com"];
              DomainQueue.checked_domains := ["www.example.com"];
              DomainQueue.rate_limited := false;
              DomainQueue.next_yield := 0 |}
           {| DomainQueue.maxsize := 0;
              DomainQueue.queue := ["www.example.com"; "example.com"];
              DomainQueue.checked_domains :=
                ["www.example.com"; "example.com"];
              DomainQueue.rate_limited := false;
              DomainQueue.next_yield := 0 |}
           {| CertStreamThread.message_type := "certificate_update";
              CertStreamThread.all_domains :=
                ["example.com"; "www.example.com"; "example.com"];
              CertStreamThread.chain := ["/C=US/O=DigiCert Inc"] |}).
  - exact py_set_iteration.
  - reflexivity.
  - right. exists "/C=US/O=DigiCert Inc", []. split; reflexivity.
  - reflexivity.
Defined.

(** X5. From any state the queue reaches, a callback that returns leaves
    a state of the same kind: no name is queued twice, none is recorded
    twice, and every queued name is recorded. *)
Theorem callback_keeps_queue_well_formed
    (ARGS : Args) (q q' : DomainQueue.t)
    (message : CertStreamThread.Message) :
  DomainQueue.reachable q None ->
  CertStreamThread.process ARGS q message = CertStreamThread.Returned q' ->
  DomainQueue.reachable q' None
  /\ NoDup (DomainQueue.queue q')
  /\ NoDup (DomainQueue.checked_domains q')
  /\ incl (DomainQueue.queue q') (DomainQueue.checked_domains q').
Proof.
  intros Hr Hret.
  assert (Hr' : DomainQueue.reachable q' None).
  { destruct (process_as_loop ARGS q message) as [E|(ds & _ & E)];
      rewrite E in Hret; [discriminate|].
    pose proof (put_each_reachable ds q Hr) as H. rewrite Hret in H.
    exact H. }
  split; [exact Hr'|].
  destruct (reachable_wf _ _ Hr') as (Hc & Hq & Hi).
  simpl in Hq, Hi. rewrite app_nil_r in Hq, Hi.
  split; [exact Hq | split; [exact Hc | exact Hi]].
Qed.

Lemma callback_keeps_queue_well_formed_witness :
  let q' := {| DomainQueue.maxsize := 0;
               DomainQueue.queue := ["example.com"];
               DomainQueue.checked_domains := ["example.com"];
               DomainQueue.rate_limited := false;
               DomainQueue.next_yield := 0 |} in
  DomainQueue.reachable q' None
  /\ NoDup (DomainQueue.queue q')
  /\ NoDup (DomainQueue.checked_domains q')
  /\ incl (DomainQueue.queue q') (DomainQueue.checked_domains q').
Proof.
  intros q'.
  apply (callback_keeps_queue_well_formed
           {| resolve := false; only_resolving := false;
              skip_lets_encrypt := false; threads := 20;
              log_to_file := false; keywords_only := false |}
           (DomainQueue.__init__ 0) q'
           {| CertStreamThread.message_type := "certificate_update";
              CertStreamThread.all_domains := ["example.com"; "example.com"];
              CertStreamThread.chain := [] |});
    [apply DomainQueue.reach_init | reflexivity].
Defined.

(** X6. Only certificate updates reach the queue: a message of any other
    type, heartbeats included, leaves it exactly as it was. *)
Theorem callback_ignores_other_messages
    (ARGS : Args) (q : DomainQueue.t) (message : CertStreamThread.Message) :
  CertStreamThread.message_type message <> "certificate_update" ->
  CertStreamThread.process ARGS q message = CertStreamThread.Returned q.
Proof.
  intros Ht. unfold CertStreamThread.process.
  destruct (_ =? "heartbeat")%string; [reflexivity|].
  apply String.eqb_neq in Ht. rewrite Ht. reflexivity.
Qed.

Lemma callback_ignores_other_messages_witness :
  CertStreamThread.process
    {| resolve := false; only_resolving := false;
       skip_lets_encrypt := false; threads := 20;
       log_to_file := false; keywords_only := false |}
    (DomainQueue.__init__ 10)
    {| CertStreamThread.message_type := "heartbeat";
       CertStreamThread.all_domains := ["example.com"];
       CertStreamThread.chain := [] |}
  = CertStreamThread.Returned (DomainQueue.__init__ 10).
Proof.
  apply callback_ignores_other_messages. simpl. discriminate.
Defined.

(** X7. The chain is read only under [skip_lets_encrypt]. With the flag
    set, a certificate update whose chain is empty raises before any name
    is offered; with the flag clear, the chain has no influence on what
    the callback does. *)
Theorem chain_is_read_only_under_the_flag
    (ARGS : Args) (q : DomainQueue.t) (message : CertStreamThread.Message) :
  (skip_lets_encrypt ARGS = true ->
   CertStreamThread.message_type message = "certificate_update" ->
   CertStreamThread.chain message = [] ->
   CertStreamThread.process ARGS q message = CertStreamThread.Raised q)
  /\ (skip_lets_encrypt ARGS = false ->
      forall chain',
        CertStreamThread.process ARGS q message
        = CertStreamThread.process ARGS q
            {| CertStreamThread.message_type :=
                 CertStreamThread.message_type message;
               CertStreamThread.all_domains :=
                 CertStreamThread.all_domains message;
               CertStreamThread.chain := chain' |}).
Proof.
  split.
  - intros Hs Ht Hc. unfold CertStreamThread.process.
    rewrite Ht, Hs, Hc. reflexivity.
  - intros Hs chain'. unfold CertStreamThread.process. simpl.
    rewrite Hs. reflexivity.
Qed.

Lemma chain_is_read_only_under_the_flag_witness :
  CertStreamThread.process
    {| resolve := false; only_resolving := false;
       skip_lets_encrypt := true; threads := 20;
       log_to_file := false; keywords_only := false |}
    (DomainQueue.__init__ 10)
    {| CertStreamThread.message_type := "certificate_update";
       CertStreamThread.all_domains := ["example.com"];
       CertStreamThread.chain := [] |}
  = CertStreamThread.Raised (DomainQueue.__init__ 10)
  /\ CertStreamThread.process
       {| resolve := false; only_resolving := false;
          skip_lets_encrypt := false; threads := 20;
          log_to_file := false; keywords_only := false |}
       (DomainQueue.__init__ 10)
       {| CertStreamThread.message_type := "certificate_update";
          CertStreamThread.all_domains := ["example.com"];
          CertStreamThread.chain := [] |}
     = CertStreamThread.process
         {| resolve := false; only_resolving := false;
            skip_lets_encrypt := false; threads := 20;
            log_to_file := false; keywords_only := false |}
         (DomainQueue.__init__ 10)
         {| CertStreamThread.message_type := "certificate_update";
            CertStreamThread.all_domains := ["example.com"];
            CertStreamThread.chain := ["/O=Let's Encrypt"] |}.
Proof.
  split.
  - apply (proj1 (chain_is_read_only_under_the_flag _ _ _)); reflexivity.
  - apply (proj2 (chain_is_read_only_under_the_flag
                    {| resolve := false; only_resolving := false;
                       skip_lets_encrypt := false; threads := 20;
                       log_to_file := false; keywords_only := false |}
                    (DomainQueue.__init__ 10)
                    {| CertStreamThread.message_type := "certificate_update";
                       CertStreamThread.all_domains := ["example.com"];
                       CertStreamThread.chain := [] |}) eq_refl
                 ["/O=Let's Encrypt"]).
Defined.

(** X8. Nothing in the program sets [rate_limited]: in every state the
    queue reaches the flag is clear, and a withdrawal returns without
    sleeping, leaving the clock and the rest of the world as they were. *)
Theorem no_withdrawal_ever_sleeps
    (q : DomainQueue.t) (pending : option string) :
  DomainQueue.reachable q pending ->
  DomainQueue.rate_limited q = false
  /\ forall RATE_LIMIT_SLEEP overrun w,
       snd (DomainQueue.get RATE_LIMIT_SLEEP overrun q w) = w.
Proof.
  intros Hr. split; [exact (reachable_flag_clear _ _ Hr)|].
  intros RL ov w. exact (reachable_get_never_sleeps RL ov _ _ w Hr).
Qed.

Lemma no_withdrawal_ever_sleeps_witness :
  DomainQueue.rate_limited (DomainQueue.__init__ 10) = false
  /\ forall RATE_LIMIT_SLEEP overrun w,
       snd (DomainQueue.get RATE_LIMIT_SLEEP overrun
              (DomainQueue.__init__ 10) w) = w.
Proof.
  apply (no_withdrawal_ever_sleeps (DomainQueue.__init__ 10) None).
  apply DomainQueue.reach_init.
Defined.

(** X9. A name handed to a worker is gone from the queue and can never be
    queued again: a later [put] of it returns the queue unchanged. *)
Theorem withdrawn_name_is_never_requeued
    (RATE_LIMIT_SLEEP overrun : Z) (q q' : DomainQueue.t)
    (pending : option string) (item : string) (w w' : World) :
  DomainQueue.reachable q pending ->
  DomainQueue.get RATE_LIMIT_SLEEP overrun q w = ((q', Some item), w') ->
  ~ In item (DomainQueue.queue q')
  /\ DomainQueue.put q' item = DomainQueue.PutDone q'.
Proof.
  intros Hr Hget.
  destruct (reachable_wf _ _ Hr) as (_ & Hq & Hi).
  destruct (get_queue_fields RATE_LIMIT_SLEEP overrun q w) as (Ec & _ & _).
  destruct (get_result_cases RATE_LIMIT_SLEEP overrun q w)
    as [(_ & En & _)|(item' & rest & Eq & Es & Er)];
    rewrite Hget in *; simpl in *; [discriminate|].
  injection Es as <-. subst rest. rewrite Eq in Hq, Hi. simpl in Hq, Hi.
  split.
  - inversion Hq as [|? ? Hnot _]; subst. intros Hin. apply Hnot.
    apply in_or_app. now left.
  - apply put_seen, seen_true. rewrite Ec. apply Hi. now left.
Qed.

Lemma withdrawn_name_is_never_requeued_witness :
  let q' := {| DomainQueue.maxsize := 0;
               DomainQueue.queue := [];
               DomainQueue.checked_domains := ["example.com"];
               DomainQueue.rate_limited := false;
               DomainQueue.next_yield := 10 |} in
  ~ In "example.com" (DomainQueue.queue q')
  /\ DomainQueue.put q' "example.com" = DomainQueue.PutDone q'.
Proof.
  intros q'.
  apply (withdrawn_name_is_never_requeued 10 0
           {| DomainQueue.maxsize := 0;
              DomainQueue.queue := ["example.com"];
              DomainQueue.checked_domains := ["example.com"];
              DomainQueue.rate_limited := false;
              DomainQueue.next_yield := 0 |}
           q' None "example.com" world0 world0).
  - apply (DomainQueue.reach_put (DomainQueue.__init__ 0) "example.com");
      [apply DomainQueue.reach_init | reflexivity].
  - reflexivity.
Defined.

(** ** What a worker does to the world *)

Section WorkerSteps.
Import DomainWorker.
Variable ARGS : Args.
Variable KEYWORD_DOMAINS : list string.
Variable gethostbyname : string -> option string.
Variable IPAddress : string -> option string.
Variable linesep : string.

Local Abbreviation process :=
  (__process ARGS KEYWORD_DOMAINS gethostbyname IPAddress linesep).
Local Abbreviation matches := (__domain_contains_any_keywords KEYWORD_DOMAINS).

(** [cprint line] followed by [__log entry]. *)
Lemma announce_and_log (line entry : string) (w : World) :
  exec (cprint line ;; __log ARGS linesep entry) w
  = {| FOUND_COUNT := FOUND_COUNT w + 1;
       domains_log :=
         if log_to_file ARGS
         then (domains_log w ++ [(entry ++ linesep)%string])%list
         else domains_log w;
       console := (console w ++ [line])%list;
       clock := clock w |}.
Proof. reflexivity. Qed.

(** [cprint line] alone. *)
Lemma announce_only (line : string) (w : World) :
  exec (cprint line ;; ret tt) w
  = {| FOUND_COUNT := FOUND_COUNT w;
       domains_log := domains_log w;
       console := (console w ++ [line])%list;
       clock := clock w |}.
Proof. reflexivity. Qed.

(** A matching name either is announced and logged, or is announced
    only. *)
Lemma on_match_shape (domain : string) (w : World) :
  exists line,
    (exists entry,
        exec (on_match ARGS gethostbyname IPAddress linesep domain) w
        = exec (cprint line ;; __log ARGS linesep entry) w)
    \/ exec (on_match ARGS gethostbyname IPAddress linesep domain) w
       = exec (cprint line ;; ret tt) w.
Proof.
  unfold on_match. destruct (resolve ARGS).
  - unfold __check_resolution, not_resolving.
    destruct (gethostbyname domain) as [a|];
      [destruct (IPAddress a) as [ip|]|];
      destruct (only_resolving ARGS); simpl; eauto.
  - eauto.
Qed.

Lemma process_no_match (domain : string) (w : World) :
  matches domain = false -> process domain w = (tt, w).
Proof.
  intros Hm. rewrite process_unfold, Hm. reflexivity.
Qed.

Lemma process_match (domain : string) (w : World) :
  matches domain = true ->
  process domain w
  = on_match ARGS gethostbyname IPAddress linesep (remove_wildcard domain) w.
Proof.
  intros Hm. rewrite process_unfold, Hm. reflexivity.
Qed.

(** The three things one call of [__process] can do to the counter and
    the log. *)
Lemma process_count_and_log (domain : string) (w : World) :
  let w' := exec (process domain) w in
  (FOUND_COUNT w' = FOUND_COUNT w /\ domains_log w' = domains_log w)
  \/ (FOUND_COUNT w' = FOUND_COUNT w + 1
      /\ exists entry,
           domains_log w' =
           if log_to_file ARGS
           then (domains_log w ++ [(entry ++ linesep)%string])%list
           else domains_log w).
Proof.
  intros w'. subst w'. unfold exec.
  destruct (matches domain) eqn:Hm.
  - rewrite (process_match _ _ Hm).
    destruct (on_match_shape (remove_wildcard domain) w)
      as (line & [(entry & E)|E]); unfold exec in E; rewrite E.
    + right. split; [reflexivity | exists entry; reflexivity].
    + left. split; reflexivity.
  - rewrite (process_no_match _ _ Hm). left. split; reflexivity.
Qed.

Lemma process_each_cons (d : string) (ds : list string) (w : World) :
  exec (process_each ARGS KEYWORD_DOMAINS gethostbyname IPAddress linesep
          (d :: ds)) w
  = exec (process_each ARGS KEYWORD_DOMAINS gethostbyname IPAddress linesep
            ds) (exec (process d) w).
Proof.
  unfold exec. cbn [process_each]. unfold bind.
  destruct (process d w). reflexivity.
Qed.

End WorkerSteps.

(** X10. One call of [__process] prints one console line when the name
    matches and does nothing at all when it does not; it never touches the
    clock and never moves the counter by more than one. *)
Theorem process_prints_once_per_match
    (ARGS : Args) (KEYWORD_DOMAINS : list string)
    (gethostbyname IPAddress : string -> option string)
    (linesep domain : string) (w : World) :
  let w' := exec (DomainWorker.__process ARGS KEYWORD_DOMAINS gethostbyname
                    IPAddress linesep domain) w in
  (DomainWorker.__domain_contains_any_keywords KEYWORD_DOMAINS domain = false
   -> w' = w)
  /\ (DomainWorker.__domain_contains_any_keywords KEYWORD_DOMAINS domain
      = true ->
      exists line, console w' = (console w ++ [line])%list)
  /\ clock w' = clock w
  /\ (FOUND_COUNT w' = FOUND_COUNT w \/ FOUND_COUNT w' = FOUND_COUNT w + 1).
Proof.
  intros w'. subst w'. split; [|split; [|split]].
  - intros Hm. unfold exec. rewrite process_no_match by exact Hm.
    reflexivity.
  - intros Hm. unfold exec. rewrite process_match by exact Hm.
    destruct (on_match_shape ARGS gethostbyname IPAddress linesep
                (DomainWorker.remove_wildcard domain) w)
      as (line & [(entry & E)|E]); unfold exec in E; rewrite E;
      exists line; reflexivity.
  - destruct (DomainWorker.__domain_contains_any_keywords KEYWORD_DOMAINS
                domain) eqn:Hm.
    + unfold exec. rewrite process_match by exact Hm.
      destruct (on_match_shape ARGS gethostbyname IPAddress linesep
                  (DomainWorker.remove_wildcard domain) w)
        as (line & [(entry & E)|E]); unfold exec in E; rewrite E;
        reflexivity.
    + unfold exec. rewrite process_no_match by exact Hm. reflexivity.
  - destruct (process_count_and_log ARGS KEYWORD_DOMAINS gethostbyname
                IPAddress linesep domain w) as [[E _]|[E _]];
      [left | right]; exact E.
Qed.

Lemma process_prints_once_per_match_witness :
  let ARGS := {| resolve := true; only_resolving := false;
                 skip_lets_encrypt := false; threads := 20;
                 log_to_file := true; keywords_only := false |} in
  exec (DomainWorker.__process ARGS ["bank"] (fun _ => None)
          (fun a => Some a) (String "010" "") "unrelated.org") world0
  = world0
  /\ exists line,
       console
         (exec (DomainWorker.__process ARGS ["bank"] (fun _ => None)
                  (fun a => Some a) (String "010" "")
                  "secure-bank.example.com") world0)
       = (console world0 ++ [line])%list.
Proof.
  intros ARGS. split.
  - apply (proj1 (process_prints_once_per_match ARGS ["bank"]
                    (fun _ => None) (fun a => Some a) (String "010" "")
                    "unrelated.org" world0)).
    reflexivity.
  - apply (proj1 (proj2 (process_prints_once_per_match ARGS ["bank"]
                           (fun _ => None) (fun a => Some a)
                           (String "010" "") "secure-bank.example.com"
                           world0))).
    reflexivity.
Defined.

(** X11. Over any run of names handed to [__process], [domains.log] is
    only appended to, by at most one line per name. With file logging on,
    [FOUND_COUNT] rises by exactly the number of lines written; with it
    off, no line is written and the counter rises by at most one per
    name. *)
Theorem counter_and_log_move_together
    (ARGS : Args) (KEYWORD_DOMAINS : list string)
    (gethostbyname IPAddress : string -> option string)
    (linesep : string) (ds : list string) (w : World) :
  let w' := exec (process_each ARGS KEYWORD_DOMAINS gethostbyname IPAddress
                    linesep ds) w in
  exists written : list string,
    domains_log w' = (domains_log w ++ written)%list
    /\ (length written <= length ds)%nat
    /\ (log_to_file ARGS = true ->
        FOUND_COUNT w' = FOUND_COUNT w + Z.of_nat (length written))
    /\ (log_to_file ARGS = false ->
        written = []
        /\ FOUND_COUNT w <= FOUND_COUNT w'
           <= FOUND_COUNT w + Z.of_nat (length ds)).
Proof.
  revert w. induction ds as [|d ds IH]; intros w w'; subst w'.
  - exists []. unfold exec. simpl. rewrite app_nil_r.
    repeat split; try reflexivity; lia.
  - rewrite process_each_cons.
    set (w1 := exec (DomainWorker.__process ARGS KEYWORD_DOMAINS
                       gethostbyname IPAddress linesep d) w).
    destruct (IH w1) as (written & El & Hlen & Hon & Hoff).
    destruct (process_count_and_log ARGS KEYWORD_DOMAINS gethostbyname
                IPAddress linesep d w) as [[Ec E1]|[Ec (entry & E1)]];
      fold w1 in Ec, E1.
    + exists written. split; [rewrite El, E1; reflexivity|].
      split; [simpl length; lia|]. split.
      * intros Hf. specialize (Hon Hf). lia.
      * intros Hf. destruct (Hoff Hf) as [-> Hb].
        split; [reflexivity | simpl length; lia].
    + destruct (log_to_file ARGS) eqn:Hf.
      * exists ((entry ++ linesep)%string :: written).
        split; [rewrite El, E1, <- app_assoc; reflexivity|].
        split; [simpl length; lia|]. split.
        -- intros _. specialize (Hon eq_refl). simpl length. lia.
        -- discriminate.
      * exists written. split; [rewrite El, E1; reflexivity|].
        split; [simpl length; lia|]. split.
        -- discriminate.
        -- intros _. destruct (Hoff eq_refl) as [-> Hb].
           split; [reflexivity | simpl length; lia].
Qed.

Lemma counter_and_log_move_together_witness :
  let w' :=
    exec (process_each
            {| resolve := false; only_resolving := false;
               skip_lets_encrypt := false; threads := 20;
               log_to_file := true; keywords_only := false |}
            ["bank"] (fun _ => None) (fun a => Some a) (String "010" "")
            ["secure-bank.example.com"; "unrelated.org"]) world0 in
  exists written : list string,
    domains_log w' = written
    /\ FOUND_COUNT w' = Z.of_nat (length written).
Proof.
  intros w'.
  destruct (counter_and_log_move_together
              {| resolve := false; only_resolving := false;
                 skip_lets_encrypt := false; threads := 20;
                 log_to_file := true; keywords_only := false |}
              ["bank"] (fun _ => None) (fun a => Some a) (String "010" "")
              ["secure-bank.example.com"; "unrelated.org"] world0)
    as (written & El & _ & Hon & _).
  exists written. split; [exact El | exact (Hon eq_refl)].
Defined.

Section ModeFacts.
Import DomainWorker.
Variable ARGS : Args.
Variable KEYWORD_DOMAINS : list string.
Variable linesep : string.

Local Abbreviation matches := (__domain_contains_any_keywords KEYWORD_DOMAINS).

(** Without resolve mode, what a run of names does to the counter and to
    the log. *)
Lemma no_resolve_process_each
    (gethostbyname IPAddress : string -> option string)
    (ds : list string) (w : World) :
  resolve ARGS = false ->
  let w' := exec (process_each ARGS KEYWORD_DOMAINS gethostbyname IPAddress
                    linesep ds) w in
  FOUND_COUNT w' = FOUND_COUNT w + Z.of_nat (length (filter matches ds))
  /\ domains_log w' =
     (if log_to_file ARGS
      then (domains_log w ++ map (plain_line linesep) (filter matches ds))%list
      else domains_log w)
  /\ clock w' = clock w.
Proof.
  intros Hr. revert w. induction ds as [|d ds IH]; intros w w'; subst w'.
  - unfold exec. simpl. rewrite app_nil_r.
    destruct (log_to_file ARGS); repeat split; lia.
  - rewrite process_each_cons.
    set (w1 := exec (__process ARGS KEYWORD_DOMAINS gethostbyname IPAddress
                       linesep d) w).
    destruct (IH w1) as (Ec & El & Ek). rewrite Ec, El, Ek.
    cbn [filter].
    destruct (matches d) eqn:Hm; subst w1; unfold exec.
    + rewrite process_match by exact Hm. unfold on_match. rewrite Hr.
      pose proof (announce_and_log ARGS linesep
                    ("Found domain '" ++ remove_wildcard d ++ "'")
                    (remove_wildcard d) w) as E.
      unfold exec in E. rewrite E. simpl.
      destruct (log_to_file ARGS); repeat split; try lia.
      rewrite <- app_assoc. reflexivity.
    + rewrite process_no_match by exact Hm. simpl.
      repeat split.
Qed.

End ModeFacts.

(** X12. Without resolve mode the resolver is never consulted: whatever
    [gethostbyname] and [IPAddress] would answer, [__process] does the
    same, and a matching name is counted and logged as the bare, stripped
    name with no IP. *)
Theorem no_resolve_mode_never_consults_dns
    (ARGS : Args) (KEYWORD_DOMAINS : list string)
    (gethostbyname IPAddress gethostbyname' IPAddress'
       : string -> option string)
    (linesep domain : string) (w : World) :
  resolve ARGS = false ->
  DomainWorker.__process ARGS KEYWORD_DOMAINS gethostbyname IPAddress
    linesep domain w
  = DomainWorker.__process ARGS KEYWORD_DOMAINS gethostbyname' IPAddress'
      linesep domain w
  /\ (DomainWorker.__domain_contains_any_keywords KEYWORD_DOMAINS domain
      = true ->
      let w' := exec (DomainWorker.__process ARGS KEYWORD_DOMAINS
                        gethostbyname IPAddress linesep domain) w in
      FOUND_COUNT w' = FOUND_COUNT w + 1
      /\ domains_log w' =
         (if log_to_file ARGS
          then (domains_log w
                ++ [(DomainWorker.remove_wildcard domain ++ linesep)%string])
               %list
          else domains_log w)).
Proof.
  intros Hr. split.
  - rewrite !process_unfold. unfold on_match. rewrite Hr. reflexivity.
  - intros Hm w'. subst w'. unfold exec. rewrite process_unfold, Hm.
    unfold on_match. rewrite Hr. split; reflexivity.
Qed.

Lemma no_resolve_mode_never_consults_dns_witness :
  let ARGS := {| resolve := false; only_resolving := true;
                 skip_lets_encrypt := false; threads := 20;
                 log_to_file := true; keywords_only := false |} in
  DomainWorker.__process ARGS ["bank"] (fun _ => None) (fun _ => None)
    (String "010" "") "secure-bank.example.com" world0
  = DomainWorker.__process ARGS ["bank"] (fun _ => Some "10.0.0.1")
      (fun a => Some a) (String "010" "") "secure-bank.example.com" world0.
Proof.
  intros ARGS.
  apply (proj1 (no_resolve_mode_never_consults_dns ARGS ["bank"]
                  (fun _ => None) (fun _ => None)
                  (fun _ => Some "10.0.0.1") (fun a => Some a)
                  (String "010" "") "secure-bank.example.com" world0
                  eq_refl)).
Defined.

(** X13. Resolve mode without [only_resolving]: a matching name whose
    lookup fails is counted and logged as the stripped name alone. *)
Theorem unresolved_match_logged_without_only_resolving
    (ARGS : Args) (KEYWORD_DOMAINS : list string)
    (gethostbyname IPAddress : string -> option string) (linesep : string)
    (domain : string) (w : World) :
  resolve ARGS = true ->
  only_resolving ARGS = false ->
  DomainWorker.__domain_contains_any_keywords KEYWORD_DOMAINS domain = true ->
  match gethostbyname (DomainWorker.remove_wildcard domain) with
  | Some a => IPAddress a
  | None => None
  end = None ->
  let w' := exec (DomainWorker.__process ARGS KEYWORD_DOMAINS gethostbyname
                    IPAddress linesep domain) w in
  FOUND_COUNT w' = FOUND_COUNT w + 1
  /\ domains_log w' =
     (if log_to_file ARGS
      then (domains_log w
            ++ [(DomainWorker.remove_wildcard domain ++ linesep)%string])%list
      else domains_log w)
  /\ console w' =
     (console w
      ++ [("Found domain '" ++ DomainWorker.remove_wildcard domain
           ++ "', not resolving to an IP.")%string])%list.
Proof.
  intros Hr Ho Hm Hfail. unfold exec.
  rewrite process_unfold, Hm. unfold on_match. rewrite Hr.
  rewrite (check_resolution_failure _ _ _ _ _ _ Hfail).
  unfold DomainWorker.not_resolving. rewrite Ho.
  repeat split.
Qed.

Lemma unresolved_match_logged_witness :
  let ARGS := {| resolve := true; only_resolving := false;
                 skip_lets_encrypt := false; threads := 20;
                 log_to_file := true; keywords_only := false |} in
  let w' :=
    exec (DomainWorker.__process ARGS ["example"] (fun _ => None)
            (fun a => Some a) (String "010" "") "*.example.org") world0 in
  FOUND_COUNT w' = 0 + 1
  /\ domains_log w' = [("example.org" ++ String "010" "")%string]
  /\ console w' = ["Found domain 'example.org', not resolving to an IP."].
Proof.
  intros ARGS w'.
  apply (unresolved_match_logged_without_only_resolving
           ARGS ["example"] (fun _ => None) (fun a => Some a)
           (String "010" "") "*.example.org" world0);
    reflexivity.
Defined.

(** X14. Resolve mode with [only_resolving]: a matching name whose lookup
    succeeds is counted and logged as [name,ip], the name stripped of its
    wildcard. *)
Theorem resolved_match_logged_when_only_resolving
    (ARGS : Args) (KEYWORD_DOMAINS : list string)
    (gethostbyname IPAddress : string -> option string) (linesep : string)
    (domain a ip : string) (w : World) :
  resolve ARGS = true ->
  only_resolving ARGS = true ->
  DomainWorker.__domain_contains_any_keywords KEYWORD_DOMAINS domain = true ->
  gethostbyname (DomainWorker.remove_wildcard domain) = Some a ->
  IPAddress a = Some ip ->
  let w' := exec (DomainWorker.__process ARGS KEYWORD_DOMAINS gethostbyname
                    IPAddress linesep domain) w in
  FOUND_COUNT w' = FOUND_COUNT w + 1
  /\ domains_log w' =
     (if log_to_file ARGS
      then (domains_log w
            ++ [(DomainWorker.remove_wildcard domain ++ "," ++ ip
                 ++ linesep)%string])%list
      else domains_log w).
Proof.
  intros Hr Ho Hm Hh Hi. unfold exec.
  rewrite process_unfold, Hm. unfold on_match. rewrite Hr.
  rewrite (check_resolution_success _ _ _ _ _ _ _ _ Hh Hi), Ho.
  unfold bind, cprint, DomainWorker.__log. simpl.
  rewrite !string_app_assoc. split; reflexivity.
Qed.

Lemma resolved_match_logged_witness :
  let ARGS := {| resolve := true; only_resolving := true;
                 skip_lets_encrypt := false; threads := 20;
                 log_to_file := true; keywords_only := false |} in
  let w' :=
    exec (DomainWorker.__process ARGS ["example"]
            (fun _ => Some "93.184.216.34") (fun a => Some a)
            (String "010" "") "*.example.com") world0 in
  FOUND_COUNT w' = 0 + 1
  /\ domains_log w' =
     [("example.com" ++ "," ++ "93.184.216.34" ++ String "010" "")%string].
Proof.
  intros ARGS w'.
  apply (resolved_match_logged_when_only_resolving
           ARGS ["example"] (fun _ => Some "93.184.216.34")
           (fun a => Some a) (String "010" "") "*.example.com"
           "93.184.216.34" "93.184.216.34" world0);
    reflexivity.
Defined.

(** ** The worker loop and the whole pipeline *)

Section LoopFacts.
Import DomainWorker.
Variable ARGS : Args.
Variable KEYWORD_DOMAINS : list string.
Variable gethostbyname : string -> option string.
Variable IPAddress : string -> option string.
Variable linesep : string.
Variable RATE_LIMIT_SLEEP : Z.
Variable overrun : Z.

Local Abbreviation process :=
  (__process ARGS KEYWORD_DOMAINS gethostbyname IPAddress linesep).
Local Abbreviation loop :=
  (run ARGS KEYWORD_DOMAINS gethostbyname IPAddress linesep
       RATE_LIMIT_SLEEP overrun).

Lemma get_flag_clear (q : DomainQueue.t) (w : World) :
  DomainQueue.rate_limited q = false ->
  DomainQueue.get RATE_LIMIT_SLEEP overrun q w
  = match DomainQueue.queue q with
    | [] =>
        (({| DomainQueue.maxsize := DomainQueue.maxsize q;
             DomainQueue.queue := [];
             DomainQueue.checked_domains := DomainQueue.checked_domains q;
             DomainQueue.rate_limited := false;
             DomainQueue.next_yield := clock w + RATE_LIMIT_SLEEP |},
          None), w)
    | item :: rest =>
        (({| DomainQueue.maxsize := DomainQueue.maxsize q;
             DomainQueue.queue := rest;
             DomainQueue.checked_domains := DomainQueue.checked_domains q;
             DomainQueue.rate_limited := false;
             DomainQueue.next_yield := clock w + RATE_LIMIT_SLEEP |},
          Some item), w)
    end.
Proof.
  intros Hf. unfold DomainQueue.get, bind.
  rewrite (rate_check_flag_clear _ _ _ _ Hf). simpl.
  destruct (DomainQueue.queue q) as [|item rest] eqn:E; reflexivity.
Qed.

(** With the flag clear, a loop of enough turns handles the queued names
    one after the other, oldest first, and leaves the queue empty. *)
Lemma run_drains (items : list string) :
  forall (turns : nat) (q : DomainQueue.t) (w : World),
  DomainQueue.rate_limited q = false ->
  DomainQueue.queue q = items ->
  (length items <= turns)%nat ->
  let r := loop turns q w in
  snd r = exec (process_each ARGS KEYWORD_DOMAINS gethostbyname IPAddress
                  linesep items) w
  /\ DomainQueue.queue (fst r) = []
  /\ DomainQueue.checked_domains (fst r) = DomainQueue.checked_domains q
  /\ DomainQueue.rate_limited (fst r) = false.
Proof.
  induction items as [|item rest IH]; intros turns q w Hf Eq Hlen r; subst r.
  - destruct turns as [|turns].
    + unfold exec. simpl. repeat split; assumption.
    + cbn [run]. unfold run_once, bind.
      rewrite (get_flag_clear q w Hf), Eq. simpl. repeat split.
  - destruct turns as [|turns]; [simpl in Hlen; lia|].
    rewrite process_each_cons.
    cbn [run]. unfold run_once, bind.
    rewrite (get_flag_clear q w Hf), Eq. cbn [fst snd].
    unfold exec. destruct (process item w) as [[] w1]. cbn [fst snd ret].
    assert (Hrest : (length rest <= turns)%nat) by (simpl in Hlen; lia).
    match goal with
    | |- context [loop turns ?q1 w1] =>
        exact (IH turns q1 w1 eq_refl eq_refl Hrest)
    end.
Qed.

End LoopFacts.

(** X15. With the rate-limit flag clear, a worker loop given at least as
    many turns as there are queued names handles them in queue order,
    oldest first: the world it leaves is the one [__process] leaves when
    applied to the queued names one after the other. The queue ends up
    empty, and [checked_domains] is as before. *)
Theorem worker_loop_handles_queue_in_order
    (ARGS : Args) (KEYWORD_DOMAINS : list string)
    (gethostbyname IPAddress : string -> option string) (linesep : string)
    (RATE_LIMIT_SLEEP overrun : Z)
    (turns : nat) (q : DomainQueue.t) (w : World) :
  DomainQueue.rate_limited q = false ->
  (length (DomainQueue.queue q) <= turns)%nat ->
  let r := DomainWorker.run ARGS KEYWORD_DOMAINS gethostbyname IPAddress
             linesep RATE_LIMIT_SLEEP overrun turns q w in
  snd r = exec (process_each ARGS KEYWORD_DOMAINS gethostbyname IPAddress
                  linesep (DomainQueue.queue q)) w
  /\ DomainQueue.queue (fst r) = []
  /\ DomainQueue.checked_domains (fst r) = DomainQueue.checked_domains q.
Proof.
  intros Hf Hlen r.
  destruct (run_drains ARGS KEYWORD_DOMAINS gethostbyname IPAddress linesep
              RATE_LIMIT_SLEEP overrun (DomainQueue.queue q) turns q w
              Hf eq_refl Hlen) as (Ew & Eq & Ec & _).
  split; [exact Ew | split; [exact Eq | exact Ec]].
Qed.

Lemma worker_loop_handles_queue_in_order_witness :
  let ARGS := {| resolve := false; only_resolving := false;
                 skip_lets_encrypt := false; threads := 20;
                 log_to_file := true; keywords_only := false |} in
  let q := {| DomainQueue.maxsize := 0;
              DomainQueue.queue := ["a-bank.example.com"; "bank.example.org"];
              DomainQueue.checked_domains :=
                ["a-bank.example.com"; "bank.example.org"];
              DomainQueue.rate_limited := false;
              DomainQueue.next_yield := 0 |} in
  let r := DomainWorker.run ARGS ["bank"] (fun _ => None) (fun a => Some a)
             (String "010" "") 10 0 5 q world0 in
  snd r = exec (process_each ARGS ["bank"] (fun _ => None) (fun a => Some a)
                  (String "010" "") (DomainQueue.queue q)) world0
  /\ DomainQueue.queue (fst r) = []
  /\ DomainQueue.checked_domains (fst r) = DomainQueue.checked_domains q.
Proof.
  intros ARGS q r.
  apply (worker_loop_handles_queue_in_order ARGS ["bank"] (fun _ => None)
           (fun a => Some a) (String "010" "") 10 0 5 q world0).
  - reflexivity.
  - simpl. lia.
Defined.

Section PipelineFacts.

Lemma filter_Permutation {A} (f : A -> bool) (l l' : list A) :
  Permutation l l' -> Permutation (filter f l) (filter f l').
Proof.
  induction 1 as [|x l l' _ IH|x y l|l l' l'' _ IH1 _ IH2]; simpl.
  - constructor.
  - destruct (f x); [constructor|]; exact IH.
  - destruct (f x), (f y); try apply Permutation_refl. apply perm_swap.
  - exact (Permutation_trans IH1 IH2).
Qed.

(** On a queue fresh from [__init__], a callback that returns from a
    certificate update it does not skip has queued the distinct names of
    the event, in the order of iteration. *)
Lemma fresh_queue_after_event (iterate : list string -> list string)
    (ARGS : Args) (maxsize : Z)
    (message : CertStreamThread.Message) (q1 : DomainQueue.t) :
  set_iteration iterate ->
  CertStreamThread.message_type message = "certificate_update" ->
  skip_lets_encrypt ARGS = false
  \/ (exists issuer others,
         CertStreamThread.chain message = issuer :: others
         /\ py_in "Let's Encrypt" issuer = false) ->
  CertStreamThread.process_in_order iterate ARGS
    (DomainQueue.__init__ maxsize) message
  = CertStreamThread.Returned q1 ->
  DomainQueue.queue q1 = iterate (CertStreamThread.all_domains message)
  /\ DomainQueue.rate_limited q1 = false.
Proof.
  intros Hit Ht Hns Hret.
  rewrite (process_in_order_offers iterate _ _ _ Ht Hns) in Hret.
  apply put_each_returned in Hret. rewrite Hret. simpl.
  split; [|reflexivity].
  apply fresh_of_all_new; [apply (Hit _) | intros d _ []].
Qed.

End PipelineFacts.

(** X16. From event to findings, without resolve mode. A certificate
    update that is not skipped (the flag is clear, or the first
    certificate of its chain does not name Let's Encrypt) is offered to a
    fresh queue with room for its names, its names being iterated in
    whatever order; a worker loop with enough turns then raises
    [FOUND_COUNT] by the number of distinct names of the event that match
    a keyword. [domains.log] keeps what it held and, with file logging
    on, gets behind it one line per such name, the stripped name, in some
    order; with file logging off it gets nothing. *)
Theorem event_to_findings
    (iterate : list string -> list string)
    (ARGS : Args) (KEYWORD_DOMAINS : list string)
    (gethostbyname IPAddress : string -> option string) (linesep : string)
    (RATE_LIMIT_SLEEP overrun maxsize : Z)
    (message : CertStreamThread.Message) (turns : nat) (w : World) :
  set_iteration iterate ->
  CertStreamThread.message_type message = "certificate_update" ->
  skip_lets_encrypt ARGS = false
  \/ (exists issuer others,
         CertStreamThread.chain message = issuer :: others
         /\ py_in "Let's Encrypt" issuer = false) ->
  resolve ARGS = false ->
  maxsize <= 0
  \/ Z.of_nat (length (CertStreamThread.all_domains message)) <= maxsize ->
  (length (CertStreamThread.all_domains message) <= turns)%nat ->
  let matching :=
    filter (DomainWorker.__domain_contains_any_keywords KEYWORD_DOMAINS)
           (nodup string_dec (CertStreamThread.all_domains message)) in
  exists q1,
    CertStreamThread.process_in_order iterate ARGS
      (DomainQueue.__init__ maxsize) message
    = CertStreamThread.Returned q1
    /\ let w' := snd (DomainWorker.run ARGS KEYWORD_DOMAINS gethostbyname
                        IPAddress linesep RATE_LIMIT_SLEEP overrun turns
                        q1 w) in
       FOUND_COUNT w' = FOUND_COUNT w + Z.of_nat (length matching)
       /\ exists written : list string,
            domains_log w' = (domains_log w ++ written)%list
            /\ (log_to_file ARGS = true ->
                Permutation written (map (plain_line linesep) matching))
            /\ (log_to_file ARGS = false -> written = []).
Proof.
  intros Hit Ht Hns Hr Hroom Hturns matching.
  set (ds := CertStreamThread.all_domains message) in *.
  pose proof (set_iteration_length iterate ds Hit) as Hlen.
  destruct (put_each_room (iterate ds) (DomainQueue.__init__ maxsize))
    as [q1 Hret].
  { simpl. destruct Hroom as [H|H]; [left; exact H | right; lia]. }
  rewrite <- (process_in_order_offers iterate ARGS _ message Ht Hns) in Hret.
  exists q1. split; [exact Hret|].
  destruct (fresh_queue_after_event iterate ARGS maxsize message q1
              Hit Ht Hns Hret) as [Eq Hf].
  fold ds in Eq.
  destruct (run_drains ARGS KEYWORD_DOMAINS gethostbyname IPAddress linesep
              RATE_LIMIT_SLEEP overrun (iterate ds) turns
              q1 w Hf Eq ltac:(lia)) as (Ew & _).
  intros w'. subst w'. rewrite Ew.
  destruct (no_resolve_process_each ARGS KEYWORD_DOMAINS linesep
              gethostbyname IPAddress (iterate ds) w Hr)
    as (Ec & El & _).
  pose proof (filter_Permutation
                (DomainWorker.__domain_contains_any_keywords KEYWORD_DOMAINS)
                _ _ (set_iteration_Permutation iterate ds Hit)) as Hperm.
  fold matching in Hperm.
  split.
  - rewrite Ec, (Permutation_length Hperm). reflexivity.
  - rewrite El. destruct (log_to_file ARGS).
    + eexists. split; [reflexivity|]. split; [|discriminate].
      intros _. apply Permutation_map, Hperm.
    + exists []. rewrite app_nil_r. split; [reflexivity|].
      split; [discriminate | reflexivity].
Qed.

Lemma event_to_findings_witness :
  let ARGS := {| resolve := false; only_resolving := false;
                 skip_lets_encrypt := true; threads := 20;
                 log_to_file := true; keywords_only := false |} in
  let message :=
    {| CertStreamThread.message_type := "certificate_update";
       CertStreamThread.all_domains :=
         ["secure-bank.example.com"; "unrelated.org"];
       CertStreamThread.chain := ["/C=US/O=DigiCert Inc"] |} in
  exists q1,
    CertStreamThread.process_in_order CertStreamThread.py_set ARGS
      (DomainQueue.__init__ 100) message
    = CertStreamThread.Returned q1
    /\ let w' := snd (DomainWorker.run ARGS ["bank"] (fun _ => None)
                        (fun a => Some a) (String "010" "") 10 0 5 q1
                        world0) in
       FOUND_COUNT w' = 0 + 1
       /\ exists written : list string,
            domains_log w' = ([] ++ written)%list
            /\ (log_to_file ARGS = true ->
                Permutation written
                  [("secure-bank.example.com" ++ String "010" "")%string])
            /\ (log_to_file ARGS = false -> written = []).
Proof.
  intros ARGS message.
  apply (event_to_findings CertStreamThread.py_set ARGS ["bank"]
           (fun _ => None) (fun a => Some a)
           (String "010" "") 10 0 100 message 5 world0).
  - exact py_set_iteration.
  - reflexivity.
  - right. exists "/C=US/O=DigiCert Inc", []. split; reflexivity.
  - reflexivity.
  - right. simpl. lia.
  - simpl. lia.
Defined.

(** ** Offering a name twice *)

Section TwiceFacts.
Import DomainQueue.

Lemma count_occ_snoc_new (l : list string) (x : string) :
  NoDup l -> ~ In x l -> count_occ string_dec (l ++ [x]) x = 1%nat.
Proof.
  intros Hn Hx. apply count_occ_NoDup_In.
  - apply NoDup_snoc; assumption.
  - apply in_or_app. right. now left.
Qed.

Lemma full_not_empty (q : t) : full q = true -> queue q <> [].
Proof.
  unfold full. intros H E. rewrite E in H.
  apply andb_true_iff in H as [Hpos Hle].
  apply Z.ltb_lt in Hpos. apply Z.leb_le in Hle. simpl in Hle. lia.
Qed.

Lemma full_positive (q : t) : full q = true -> 0 < maxsize q.
Proof.
  unfold full. intros H. apply andb_true_iff in H as [Hpos _].
  apply Z.ltb_lt, Hpos.
Qed.

End TwiceFacts.

(** C4. Idempotent admission, from any state the queue can be in.
    A name already in [checked_domains] is there once, and offering it
    returns the queue unchanged. A new name offered while there is room is
    queued at once; a second offer then returns the queue unchanged, so it
    takes no room; [checked_domains] and the queue each hold the name
    exactly once, and the queue has grown by exactly one item. A new name
    offered to a full queue is recorded once and waits; after one
    withdrawal the waiting offer completes, and again a second offer
    changes nothing and the name is recorded once and queued once. *)
Theorem put_twice_queues_once (q : DomainQueue.t) (domain : string) :
  DomainQueue.reachable q None ->
  (DomainQueue.seen q domain = true ->
   DomainQueue.put q domain = DomainQueue.PutDone q
   /\ count_occ string_dec (DomainQueue.checked_domains q) domain = 1%nat
   /\ (count_occ string_dec (DomainQueue.queue q) domain <= 1)%nat)
  /\ (DomainQueue.seen q domain = false -> DomainQueue.full q = false ->
      exists q1,
        DomainQueue.put q domain = DomainQueue.PutDone q1
        /\ DomainQueue.put q1 domain = DomainQueue.PutDone q1
        /\ count_occ string_dec (DomainQueue.checked_domains q1) domain
           = 1%nat
        /\ count_occ string_dec (DomainQueue.queue q1) domain = 1%nat
        /\ length (DomainQueue.queue q1) = S (length (DomainQueue.queue q)))
  /\ (DomainQueue.seen q domain = false -> DomainQueue.full q = true ->
      exists q1,
        DomainQueue.put q domain = DomainQueue.PutBlocked q1 domain
        /\ count_occ string_dec (DomainQueue.checked_domains q1) domain
           = 1%nat
        /\ DomainQueue.queue q1 = DomainQueue.queue q
        /\ forall RATE_LIMIT_SLEEP overrun w,
             exists q3,
               DomainQueue.Queue_put
                 (fst (fst (DomainQueue.get RATE_LIMIT_SLEEP overrun q1 w)))
                 domain = DomainQueue.PutDone q3
               /\ DomainQueue.put q3 domain = DomainQueue.PutDone q3
               /\ count_occ string_dec (DomainQueue.checked_domains q3)
                    domain = 1%nat
               /\ count_occ string_dec (DomainQueue.queue q3) domain
                  = 1%nat
               /\ length (DomainQueue.queue q3)
                  = length (DomainQueue.queue q)).
Proof.
  intros Hreach.
  destruct (reachable_wf _ _ Hreach) as (Hc & Hq & Hi).
  simpl in Hq, Hi. rewrite app_nil_r in Hq, Hi.
  split; [|split].
  - intros Hs. split; [apply put_seen, Hs|]. split.
    + apply count_occ_NoDup_In; [exact Hc | apply seen_true, Hs].
    + pose proof (proj1 (NoDup_count_occ string_dec _) Hq domain). lia.
  - intros Hs Hroom. apply seen_false in Hs as Hnew.
    destruct (put_cases q domain) as [(Hin & _)|[(_ & Hf & _)|(_ & _ & E)]];
      [contradiction | congruence |].
    eexists. split; [exact E|]. simpl.
    split; [apply put_seen, seen_true; simpl;
            apply in_or_app; right; now left|].
    split; [apply count_occ_snoc_new; assumption|].
    split.
    + apply count_occ_snoc_new; [exact Hq|]. intros Hin. apply Hnew, Hi, Hin.
    + rewrite length_app. simpl. lia.
  - intros Hs Hfull. apply seen_false in Hs as Hnew.
    destruct (put_cases q domain) as [(Hin & _)|[(_ & _ & E)|(_ & Hf & _)]];
      [contradiction | | congruence].
    eexists. split; [exact E|]. simpl.
    split; [apply count_occ_snoc_new; assumption|].
    split; [reflexivity|].
    intros RL ov w.
    pose proof (reachable_within_maxsize q None Hreach
                  (full_positive q Hfull)) as Hbound.
    pose proof (full_not_empty q Hfull) as Hne.
    destruct (DomainQueue.queue q) as [|item rest] eqn:Eq; [congruence|].
    pose proof (reachable_flag_clear _ _ Hreach) as Hflag.
    match goal with
    | |- context [DomainQueue.get RL ov ?q1 w] =>
        rewrite (get_flag_clear RL ov q1 w Hflag)
    end.
    simpl. unfold DomainQueue.Queue_put.
    assert (Hroom : DomainQueue.full
                      {| DomainQueue.maxsize := DomainQueue.maxsize q;
                         DomainQueue.queue := rest;
                         DomainQueue.checked_domains :=
                           (DomainQueue.checked_domains q ++ [domain])%list;
                         DomainQueue.rate_limited := false;
                         DomainQueue.next_yield := clock w + RL |} = false).
    { apply room_not_full. simpl. simpl length in Hbound. lia. }
    rewrite Hroom. eexists. split; [reflexivity|]. simpl.
    split; [apply put_seen, seen_true; simpl;
            apply in_or_app; right; now left|].
    split; [apply count_occ_snoc_new; assumption|].
    split.
    + apply count_occ_snoc_new; [now inversion Hq|].
      intros Hin. apply Hnew, Hi. now right.
    + rewrite length_app. simpl. lia.
Qed.

Lemma put_twice_queues_once_witness :
  let q1 := {| DomainQueue.maxsize := 1;
               DomainQueue.queue := ["a.example.com"];
               DomainQueue.checked_domains := ["a.example.com"];
               DomainQueue.rate_limited := false;
               DomainQueue.next_yield := 0 |} in
  (DomainQueue.put (DomainQueue.__init__ 1) "a.example.com"
   = DomainQueue.PutDone q1
   /\ DomainQueue.put q1 "a.example.com" = DomainQueue.PutDone q1
   /\ count_occ string_dec (DomainQueue.checked_domains q1) "a.example.com"
      = 1%nat
   /\ count_occ string_dec (DomainQueue.queue q1) "a.example.com" = 1%nat)
  /\ (exists q2,
         DomainQueue.put q1 "b.example.com"
         = DomainQueue.PutBlocked q2 "b.example.com"
         /\ exists q3,
              DomainQueue.Queue_put
                (fst (fst (DomainQueue.get 10 0 q2 world0))) "b.example.com"
              = DomainQueue.PutDone q3
              /\ DomainQueue.put q3 "b.example.com" = DomainQueue.PutDone q3
              /\ count_occ string_dec (DomainQueue.queue q3) "b.example.com"
                 = 1%nat).
Proof.
  intros q1. split.
  - destruct (proj1 (proj2 (put_twice_queues_once (DomainQueue.__init__ 1)
                              "a.example.com"
                              (DomainQueue.reach_init 1)))
                eq_refl eq_refl)
      as (q1' & E1 & E2 & Ec & Eq & _).
    assert (q1' = q1) as -> by (now injection E1).
    split; [reflexivity | split; [exact E2 | split; [exact Ec | exact Eq]]].
  - assert (Hr : DomainQueue.reachable q1 None).
    { apply (DomainQueue.reach_put (DomainQueue.__init__ 1) "a.example.com");
        [apply DomainQueue.reach_init | reflexivity]. }
    destruct (proj2 (proj2 (put_twice_queues_once q1 "b.example.com" Hr))
                eq_refl eq_refl)
      as (q2 & E1 & _ & _ & Hafter).
    exists q2. split; [exact E1|].
    destruct (Hafter 10 0 world0) as (q3 & E3 & E4 & _ & Eq & _).
    exists q3. split; [exact E3 | split; [exact E4 | exact Eq]].
Defined.

(** ** Backpressure *)

(** X17. A new name that finds a bounded queue full is recorded in
    [checked_domains] at once, while its [put] waits. One withdrawal hands
    out the oldest queued name and makes room, and the waiting [put] then
    completes with the name at the back of the queue: it is delayed, not
    lost. *)
Theorem blocked_put_completes_after_one_get
    (RATE_LIMIT_SLEEP overrun : Z) (q : DomainQueue.t) (domain : string)
    (w : World) :
  DomainQueue.reachable q None ->
  DomainQueue.full q = true ->
  ~ In domain (DomainQueue.checked_domains q) ->
  exists q1 item rest q2 w' q3,
    DomainQueue.put q domain = DomainQueue.PutBlocked q1 domain
    /\ In domain (DomainQueue.checked_domains q1)
    /\ DomainQueue.queue q = item :: rest
    /\ DomainQueue.get RATE_LIMIT_SLEEP overrun q1 w = ((q2, Some item), w')
    /\ DomainQueue.Queue_put q2 domain = DomainQueue.PutDone q3
    /\ DomainQueue.queue q3 = (rest ++ [domain])%list.
Proof.
  intros Hr Hfull Hnew.
  destruct (put_cases q domain) as [(Hin & _)|[(_ & _ & E)|(_ & Hf & _)]];
    [contradiction | | congruence].
  assert (Hpos : 0 < DomainQueue.maxsize q).
  { unfold DomainQueue.full in Hfull.
    apply andb_true_iff in Hfull as [H _]. apply Z.ltb_lt, H. }
  pose proof (reachable_within_maxsize q None Hr Hpos) as Hbound.
  destruct (DomainQueue.queue q) as [|item rest] eqn:Eq.
  { simpl in Hbound. unfold DomainQueue.full in Hfull. rewrite Eq in Hfull.
    apply andb_true_iff in Hfull as [_ H]. apply Z.leb_le in H.
    simpl in H. lia. }
  set (q1 := {| DomainQueue.maxsize := DomainQueue.maxsize q;
                DomainQueue.queue := item :: rest;
                DomainQueue.checked_domains :=
                  (DomainQueue.checked_domains q ++ [domain])%list;
                DomainQueue.rate_limited := DomainQueue.rate_limited q;
                DomainQueue.next_yield := DomainQueue.next_yield q |}).
  assert (Hf1 : DomainQueue.rate_limited q1 = false)
    by exact (reachable_flag_clear _ _ Hr).
  pose proof (get_flag_clear RATE_LIMIT_SLEEP overrun q1 w Hf1) as Hget.
  simpl in Hget.
  eexists q1, item, rest, _, w, _.
  split; [exact E|].
  split; [simpl; apply in_or_app; right; now left|].
  split; [reflexivity|].
  split; [exact Hget|].
  unfold DomainQueue.Queue_put.
  assert (Hroom : DomainQueue.full
                    {| DomainQueue.maxsize := DomainQueue.maxsize q;
                       DomainQueue.queue := rest;
                       DomainQueue.checked_domains :=
                         (DomainQueue.checked_domains q ++ [domain])%list;
                       DomainQueue.rate_limited := false;
                       DomainQueue.next_yield :=
                         clock w + RATE_LIMIT_SLEEP |} = false).
  { apply room_not_full. simpl. simpl length in Hbound. lia. }
  rewrite Hroom. split; reflexivity.
Qed.

Lemma blocked_put_completes_after_one_get_witness :
  let q := {| DomainQueue.maxsize := 1;
              DomainQueue.queue := ["a.example.com"];
              DomainQueue.checked_domains := ["a.example.com"];
              DomainQueue.rate_limited := false;
              DomainQueue.next_yield := 0 |} in
  exists q1 item rest q2 w' q3,
    DomainQueue.put q "b.example.com"
    = DomainQueue.PutBlocked q1 "b.example.com"
    /\ In "b.example.com" (DomainQueue.checked_domains q1)
    /\ DomainQueue.queue q = item :: rest
    /\ DomainQueue.get 10 0 q1 world0 = ((q2, Some item), w')
    /\ DomainQueue.Queue_put q2 "b.example.com" = DomainQueue.PutDone q3
    /\ DomainQueue.queue q3 = (rest ++ ["b.example.com"])%list.
Proof.
  intros q.
  apply (blocked_put_completes_after_one_get 10 0 q "b.example.com" world0).
  - apply (DomainQueue.reach_put (DomainQueue.__init__ 1) "a.example.com");
      [apply DomainQueue.reach_init | reflexivity].
  - reflexivity.
  - simpl. intros [H|[]]. discriminate.
Defined.

(** ** More on keywords and start-up *)

Section MatcherFacts.
Import DomainWorker.

Lemma py_in_empty (d : string) : py_in "" d = true.
Proof. apply py_in_here. destruct d; reflexivity. Qed.

Lemma py_in_inside (k d a b : string) :
  py_in k d = true -> py_in k (a ++ d ++ b) = true.
Proof.
  intros H. apply py_in_spec in H as (x & y & ->).
  apply py_in_spec. exists (a ++ x), (y ++ b).
  rewrite !string_app_assoc. reflexivity.
Qed.

Lemma contains_any_app (kw1 kw2 : list string) (d : string) :
  __domain_contains_any_keywords (kw1 ++ kw2) d
  = __domain_contains_any_keywords kw1 d
    || __domain_contains_any_keywords kw2 d.
Proof. apply existsb_app. Qed.

(** Of the nine permutations of a seed, three decide: the others contain
    one of them. *)
Lemma permutations_match (seed d : string) :
  __domain_contains_any_keywords (get_permutations seed) d
  = py_in (seed ++ "-") d || py_in ("-" ++ seed) d || py_in ("." ++ seed) d.
Proof.
  apply eq_true_iff_eq. rewrite !orb_true_iff. split.
  - intros H. apply contains_any_inv in H as (keyword & Hin & Hsub).
    unfold get_permutations in Hin. simpl in Hin.
    repeat (destruct Hin as [<-|Hin];
            [first [ left; left; exact Hsub
                   | left; right; exact Hsub
                   | right; exact Hsub
                   | left; right;
                     apply (py_in_app_l (String "-" seed) "-"); exact Hsub
                   | left; right;
                     apply (py_in_app_l (String "-" seed) "."); exact Hsub
                   | right;
                     apply (py_in_app_l (String "." seed) "-"); exact Hsub
                   | right;
                     apply (py_in_app_l (String "." seed) "."); exact Hsub ]
            |]).
    destruct Hin.
  - intros [[H|H]|H].
    + apply (contains_any_intro _ (seed ++ "-")); [|exact H].
      simpl. tauto.
    + apply (contains_any_intro _ ("-" ++ seed)); [|exact H].
      simpl. tauto.
    + apply (contains_any_intro _ ("." ++ seed)); [|exact H].
      simpl. tauto.
Qed.

End MatcherFacts.

(** X18. A blank keyword matches every name, and an empty keyword list
    matches none. With a blank seed in keywords-only mode, every name that
    contains a dot or a hyphen matches. *)
Theorem blank_keyword_matches_everything
    (KEYWORD_DOMAINS seeds : list string) (domain : string) :
  (In "" KEYWORD_DOMAINS ->
   DomainWorker.__domain_contains_any_keywords KEYWORD_DOMAINS domain = true)
  /\ DomainWorker.__domain_contains_any_keywords [] domain = false
  /\ (In "" seeds ->
      py_in "." domain = true \/ py_in "-" domain = true ->
      DomainWorker.__domain_contains_any_keywords
        (flat_map get_permutations seeds) domain = true).
Proof.
  split; [|split].
  - intros Hin. apply (contains_any_intro _ ""); [exact Hin|].
    apply py_in_empty.
  - reflexivity.
  - intros Hin [H|H].
    + apply (contains_any_intro _ "."); [|exact H].
      apply in_flat_map. exists "". split; [exact Hin | simpl; tauto].
    + apply (contains_any_intro _ "-"); [|exact H].
      apply in_flat_map. exists "". split; [exact Hin | simpl; tauto].
Qed.

Lemma blank_keyword_matches_everything_witness :
  DomainWorker.__domain_contains_any_keywords ["bank"; ""] "unrelated.org"
  = true
  /\ DomainWorker.__domain_contains_any_keywords
       (flat_map get_permutations [""]) "unrelated.org" = true.
Proof.
  split.
  - apply (proj1 (blank_keyword_matches_everything ["bank"; ""] []
                    "unrelated.org")).
    simpl. tauto.
  - apply (proj2 (proj2 (blank_keyword_matches_everything [] [""]
                           "unrelated.org"))).
    + simpl. tauto.
    + left. reflexivity.
Defined.

(** X19. In keywords-only mode a name matches exactly when, for some
    seed, it contains the seed followed by a hyphen, or preceded by a
    hyphen, or preceded by a dot. A dot after the seed does not count. *)
Theorem keywords_only_matches_three_forms
    (py_int : string -> option Z) (INPUT_DOMAINS : list string)
    (QUEUE_SIZE : Z) (cl : CommandLine) (st : Started) (domain : string) :
  cl_keywords_only cl = true ->
  main py_int INPUT_DOMAINS QUEUE_SIZE cl = Some st ->
  DomainWorker.__domain_contains_any_keywords (st_keywords st) domain
  = existsb (fun seed => py_in (seed ++ "-") domain
                         || py_in ("-" ++ seed) domain
                         || py_in ("." ++ seed) domain)
            INPUT_DOMAINS.
Proof.
  intros Hk Hmain. rewrite (main_keywords_only _ _ _ _ _ Hk Hmain).
  clear. induction INPUT_DOMAINS as [|seed seeds IH]; [reflexivity|].
  cbn [flat_map existsb]. rewrite contains_any_app, IH, permutations_match.
  reflexivity.
Qed.

Lemma keywords_only_matches_three_forms_witness :
  exists st,
    main (fun _ => None) ["foo"] 100
      {| cl_resolve := false; cl_only_resolving := false;
         cl_skip_lets_encrypt := false; cl_threads := None;
         cl_log := false; cl_keywords_only := true |} = Some st
    /\ DomainWorker.__domain_contains_any_keywords (st_keywords st)
         "foo.com" = false.
Proof.
  eexists. split; [reflexivity|].
  etransitivity.
  - apply (keywords_only_matches_three_forms (fun _ => None) ["foo"] 100
             {| cl_resolve := false; cl_only_resolving := false;
                cl_skip_lets_encrypt := false; cl_threads := None;
                cl_log := false; cl_keywords_only := true |});
      reflexivity.
  - reflexivity.
Defined.

(** X20. Matching is by substring, so it survives any text around the
    name: if a name matches, every name that contains it matches. *)
Theorem match_survives_surrounding_text
    (KEYWORD_DOMAINS : list string) (domain before after : string) :
  DomainWorker.__domain_contains_any_keywords KEYWORD_DOMAINS domain = true ->
  DomainWorker.__domain_contains_any_keywords KEYWORD_DOMAINS
    (before ++ domain ++ after) = true.
Proof.
  intros H. apply contains_any_inv in H as (keyword & Hin & Hsub).
  apply (contains_any_intro _ keyword); [exact Hin|].
  apply py_in_inside, Hsub.
Qed.

Lemma match_survives_surrounding_text_witness :
  DomainWorker.__domain_contains_any_keywords ["bank"]
    ("*." ++ "bank.example" ++ ".com") = true.
Proof.
  apply match_survives_surrounding_text. reflexivity.
Defined.

(** X21. Without keywords-only mode the input list is the keyword list,
    unchanged: a name matches exactly when it contains one of the input
    lines, bare. *)
Theorem raw_mode_uses_input_verbatim
    (py_int : string -> option Z) (INPUT_DOMAINS : list string)
    (QUEUE_SIZE : Z) (cl : CommandLine) (st : Started) :
  cl_keywords_only cl = false ->
  main py_int INPUT_DOMAINS QUEUE_SIZE cl = Some st ->
  st_keywords st = INPUT_DOMAINS
  /\ forall domain,
       DomainWorker.__domain_contains_any_keywords (st_keywords st) domain
       = true
       <-> exists seed before after,
             In seed INPUT_DOMAINS /\ domain = before ++ seed ++ after.
Proof.
  intros Hk Hmain.
  assert (E : st_keywords st = INPUT_DOMAINS).
  { destruct (main_inv _ _ _ _ _ Hmain) as (a & Hp & _ & -> & _).
    unfold main_keywords.
    rewrite default_threads_keywords_only,
      (parse_args_keywords_only _ _ _ Hp), Hk.
    reflexivity. }
  split; [exact E|]. rewrite E. intros domain. split.
  - intros H. apply contains_any_inv in H as (seed & Hin & Hsub).
    apply py_in_spec in Hsub as (before & after & ->).
    exists seed, before, after. split; [exact Hin | reflexivity].
  - intros (seed & before & after & Hin & ->).
    apply (contains_any_intro _ seed); [exact Hin | apply py_in_intro].
Qed.

Lemma raw_mode_uses_input_verbatim_witness :
  exists st,
    main (fun _ => None) ["foo"] 100
      {| cl_resolve := false; cl_only_resolving := false;
         cl_skip_lets_encrypt := false; cl_threads := None;
         cl_log := false; cl_keywords_only := false |} = Some st
    /\ st_keywords st = ["foo"]
    /\ DomainWorker.__domain_contains_any_keywords (st_keywords st)
         "foobar.com" = true.
Proof.
  eexists. split; [reflexivity|].
  destruct (raw_mode_uses_input_verbatim (fun _ => None) ["foo"] 100
              {| cl_resolve := false; cl_only_resolving := false;
                 cl_skip_lets_encrypt := false; cl_threads := None;
                 cl_log := false; cl_keywords_only := false |}
              _ eq_refl eq_refl) as [E Hiff].
  split; [exact E|].
  apply Hiff. exists "foo", "", "bar.com". split; [simpl; tauto|reflexivity].
Defined.

(** X22. [remove_wildcard] takes off one leading [*.] and nothing else: a
    name that starts with [*.] loses exactly these two characters, even
    when what follows starts with [*.] again or is empty, and any other
    name is returned as it is. *)
Theorem remove_wildcard_strips_one_prefix (domain : string) :
  (exists rest, domain = "*." ++ rest
                /\ DomainWorker.remove_wildcard domain = rest)
  \/ (startswith domain "*." = false
      /\ DomainWorker.remove_wildcard domain = domain).
Proof.
  unfold DomainWorker.remove_wildcard.
  destruct (startswith domain "*.") eqn:Hs.
  - left. unfold startswith in Hs.
    destruct (prefix_inv _ _ Hs) as [rest ->].
    exists rest. split; [reflexivity|]. reflexivity.
  - right. split; reflexivity.
Qed.

(** X23. What [-t] leads to. Text that [int] rejects stops [main] before
    anything is started. A parsed value [n] starts [n] workers when it is
    positive, five when it is zero, and none at all when it is
    negative. *)
Theorem worker_count_follows_threads_option
    (py_int : string -> option Z) (INPUT_DOMAINS : list string)
    (QUEUE_SIZE : Z) (cl : CommandLine) (text : string) :
  cl_threads cl = Some text ->
  (py_int text = None -> main py_int INPUT_DOMAINS QUEUE_SIZE cl = None)
  /\ (forall n, py_int text = Some n ->
      exists st,
        main py_int INPUT_DOMAINS QUEUE_SIZE cl = Some st
        /\ threads (st_args st) = (if n =? 0 then 5 else n)
        /\ length (st_workers st)
           = Z.to_nat (if n =? 0 then 5 else n)
        /\ (n < 0 -> st_workers st = [])).
Proof.
  intros Hgiven. split.
  - intros Hbad. unfold main, parse_args. rewrite Hgiven, Hbad. reflexivity.
  - intros n Hn. unfold main, parse_args. rewrite Hgiven, Hn.
    eexists. split; [reflexivity|]. simpl. unfold default_threads. simpl.
    destruct (n =? 0) eqn:E; simpl.
    + repeat split. apply Z.eqb_eq in E. lia.
    + split; [reflexivity | split; [apply length_seq|]].
      intros Hneg. destruct n; try lia. reflexivity.
Qed.

Lemma worker_count_follows_threads_option_witness :
  let py_int := fun text => if (text =? "-3")%string then Some (-3)
                            else None in
  main py_int ["example"] 100
    {| cl_resolve := false; cl_only_resolving := false;
       cl_skip_lets_encrypt := false; cl_threads := Some "many";
       cl_log := false; cl_keywords_only := false |} = None
  /\ exists st,
       main py_int ["example"] 100
         {| cl_resolve := false; cl_only_resolving := false;
            cl_skip_lets_encrypt := false; cl_threads := Some "-3";
            cl_log := false; cl_keywords_only := false |} = Some st
       /\ st_workers st = [].
Proof.
  intros py_int. split.
  - apply (proj1 (worker_count_follows_threads_option py_int ["example"] 100
                    {| cl_resolve := false; cl_only_resolving := false;
                       cl_skip_lets_encrypt := false;
                       cl_threads := Some "many";
                       cl_log := false; cl_keywords_only := false |}
                    "many" eq_refl)).
    reflexivity.
  - destruct (proj2 (worker_count_follows_threads_option py_int ["example"]
                       100
                       {| cl_resolve := false; cl_only_resolving := false;
                          cl_skip_lets_encrypt := false;
                          cl_threads := Some "-3";
                          cl_log := false; cl_keywords_only := false |}
                       "-3" eq_refl) (-3) eq_refl)
      as (st & Hmain & _ & _ & Hnone).
    exists st. split; [exact Hmain | apply Hnone; lia].
Defined.
